(** * Victor Springs WhatsApp bridge: a shallow embedding of
      [notification_service/whatsapp_bridge.js] and the properties of its
      relay core.

    The bridge keeps one piece of mutable state, the object [messageMap]
    (WhatsApp message id -> socket id), and reacts to events: HTTP requests,
    socket.io events of website visitors, and Baileys events of the WhatsApp
    connection.  Each handler is embedded as a function from the current
    [messageMap] and the event to the new [messageMap] and the trace of
    observable actions it performs.  The result of an awaited
    [sock.sendMessage] is an input of the handler ([SendResult]).

    Strings are sequences of bytes; the literals of the source are kept as
    their UTF-8 encoding.  [messageMap] is the finite map of the own
    properties of the object; a read [messageMap[key]] also sees what the
    object inherits from [Object.prototype] ([get_property]).

    An [Event] is one invocation of one handler.  The only handler that
    awaits before it touches the store is the one of [send_message]: its
    event stands where the awaited send settles and the handler resumes.
    Each call of [startWhatsApp] registers the handlers again, so after a
    reconnect one client event may run several invocations; each of them
    is an event of its own. *)

From stdpp Require Import gmap strings list fin_maps.
From Stdlib Require Import String Ascii ZArith.

Open Scope string_scope.
Set Warnings "-register-all".

(** ** JavaScript values and primitives used by the bridge *)

Module JS.

(** JSON-like values: request bodies, event payloads, logged arguments.
    An object is the list of its properties, each name once. *)
Inductive Value : Type :=
| Undefined
| Null
| Bool (b : bool)
| Number (n : Z)
| Str (s : string)
| Array (elems : list Value)
| Object (props : list (string * Value)).

(** An [Error] instance; only its [message] is ever read. *)
Record Error : Type := { message : string }.

(** The [TypeError] raised by a property access on [undefined]/[null] or by
    calling something that is not a function. *)
Definition TypeError : Error := {| message := "TypeError" |}.

(** Truthiness of a value that is a string or [undefined]/[null]
    ([None]): only a non-empty string is truthy. *)
Definition truthy (v : option string) : bool :=
  match v with
  | Some (String _ _) => true
  | _ => false
  end.

(** Truthiness of a boolean-or-missing flag. *)
Definition truthy_flag (v : option bool) : bool :=
  match v with
  | Some true => true
  | _ => false
  end.

(** [a || b] on string-or-missing operands. *)
Definition or (a b : option string) : option string :=
  if truthy a then a else b.

(** [s.startsWith(p)] *)
Definition startsWith (p s : string) : bool := String.prefix p s.

(** [s.slice(start)] for a non-negative [start]. *)
Fixpoint slice (start : nat) (s : string) : string :=
  match start, s with
  | O, _ => s
  | S n, String _ rest => slice n rest
  | S _, EmptyString => EmptyString
  end.

(** [obj.name] on an object literal; a missing property is [undefined]. *)
Fixpoint get_prop (name : string) (props : list (string * Value)) : Value :=
  match props with
  | [] => Undefined
  | (k, v) :: rest => if String.eqb k name then v else get_prop name rest
  end.

(** [v.name] on an arbitrary value: [None] is the TypeError of reading a
    property of [undefined] or [null]; primitives and arrays have no such
    own property. *)
Definition member (name : string) (v : Value) : option Value :=
  match v with
  | Undefined | Null => None
  | Object props => Some (get_prop name props)
  | _ => Some Undefined
  end.

(** Optional chaining [o?.f]: a missing receiver gives [undefined]. *)
Definition chain {A B : Type} (o : option A) (f : A -> option B) : option B :=
  match o with
  | Some a => f a
  | None => None
  end.

End JS.

Notation "o ?> f" := (JS.chain o f) (at level 50, left associativity).

(** ** Addresses *)

(** The address-type suffix of a WhatsApp user JID. *)
Definition jid_suffix : string := "@s.whatsapp.net".

(** [formattedPhone] of the [/send-whatsapp] handler:
    convert local 07... to 2547... format. *)
Definition formattedPhone (phone : string) : string :=
  if JS.startsWith "0" phone then "254" ++ JS.slice 1 phone
  else if JS.startsWith "+" phone then JS.slice 1 phone
  else phone.

(** [const id = formattedPhone + "@s.whatsapp.net"] *)
Definition whatsapp_id (phone : string) : string :=
  formattedPhone phone ++ jid_suffix.

(** The module-level [adminPhone], computed once from
    [process.env.ADMIN_WHATSAPP_NUMBER] ([None] when the variable is not in
    the environment). *)
Definition adminPhone (ADMIN_WHATSAPP_NUMBER : option string) : string :=
  match ADMIN_WHATSAPP_NUMBER with
  | Some n =>
      if JS.truthy (Some n)
      then (if JS.startsWith "+" n then JS.slice 1 n else n) ++ jid_suffix
      else "254754096684@s.whatsapp.net"
  | None => "254754096684@s.whatsapp.net"
  end.

(** ** Messages of the WhatsApp connector (Baileys) *)

Module WA.

(** [msg.message.extendedTextMessage.contextInfo] *)
Record ContextInfo : Type := { stanzaId : option string }.

(** [msg.message.extendedTextMessage] *)
Record ExtendedTextMessage : Type :=
  { text : option string;
    contextInfo : option ContextInfo }.

(** [msg.message] *)
Record Message : Type :=
  { conversation : option string;
    extendedTextMessage : option ExtendedTextMessage }.

(** [msg.key] *)
Record MessageKey : Type :=
  { remoteJid : option string;
    fromMe : option bool;
    id : string }.

(** One element of [m.messages], also the value [sock.sendMessage]
    resolves to. *)
Record WAMessage : Type :=
  { key : MessageKey;
    message : option Message }.

(** The argument of the [messages.upsert] listener. *)
Record Upsert : Type := { messages : list WAMessage }.

(** [lastDisconnect.error.output] *)
Record Output : Type := { statusCode : option Z }.

(** [lastDisconnect.error] *)
Record Boom : Type := { output : option Output }.

(** [update.lastDisconnect] *)
Record LastDisconnect : Type := { error : option Boom }.

(** The argument of the [connection.update] listener. *)
Record ConnectionUpdate : Type :=
  { connection : option string;
    lastDisconnect : option LastDisconnect;
    qr : option string }.

End WA.

(** The outcome of an awaited [sock.sendMessage(jid, content)]: it resolves
    to the sent message, whose [key.id] WhatsApp assigned, or rejects. *)
Inductive SendResult : Type :=
| Resolved (sentMsg : WA.WAMessage)
| Rejected (error : JS.Error).

(** ** Reading a property of [messageMap] *)

(** The string keys that every plain object inherits from
    [Object.prototype]. *)
Definition object_prototype_names : list string :=
  ["constructor"; "__proto__"; "hasOwnProperty"; "isPrototypeOf";
   "propertyIsEnumerable"; "toLocaleString"; "toString"; "valueOf";
   "__defineGetter__"; "__defineSetter__"; "__lookupGetter__";
   "__lookupSetter__"].

(** What [messageMap[key]] evaluates to: the string stored under the key,
    the member of that name inherited from [Object.prototype] (a function,
    or the prototype itself for [__proto__]), or [undefined]. *)
Inductive Property : Type :=
| Own (value : string)
| Inherited (name : string)
| Missing.

(** Truthiness of such a value: functions and objects are truthy. *)
Definition property_truthy (v : Property) : bool :=
  match v with
  | Own value => JS.truthy (Some value)
  | Inherited _ => true
  | Missing => false
  end.

(** ** Observable actions *)

Inductive Action : Type :=
| ConsoleLog (args : list JS.Value)
| ConsoleError (args : list JS.Value)
| QrGenerate (qr : string)
| SockSendMessage (jid : string) (content : JS.Value)
| IoToEmit (room : Property) (event : string) (payload : JS.Value)
| SocketEmit (socket_id : string) (event : string) (payload : JS.Value)
| ResJson (status : Z) (body : JS.Value)
| StartWhatsApp.

(** How a handler invocation ends: it runs to completion, or an exception
    escapes it (for an [async] handler, a rejected promise nobody
    handles). *)
Inductive Completion : Type :=
| Returned
| Threw (e : JS.Error).

(** What one handler invocation did: its actions in order, and how it
    ended. *)
Record Run : Type := { actions : list Action; completion : Completion }.

Definition returned (acts : list Action) : Run :=
  {| actions := acts; completion := Returned |}.

Definition threw (acts : list Action) (e : JS.Error) : Run :=
  {| actions := acts; completion := Threw e |}.

(** An [Error] as [console.error] prints it and as JSON carries it. *)
Definition error_value (e : JS.Error) : JS.Value := JS.Str (JS.message e).

(** ** The correlation store [messageMap] *)

(** [messageMap[messageId] = socketId] *)
Definition record (messageId socketId : string) (messageMap : gmap string string)
  : gmap string string :=
  <[messageId := socketId]> messageMap.

(** The correlation recorded for [messageId]: the own property of that
    name, if any. *)
Definition resolve (messageMap : gmap string string) (messageId : string)
  : option string :=
  messageMap !! messageId.

(** The read [messageMap[key]] as JavaScript evaluates it on the plain
    object: an own property first, then the prototype chain. *)
Definition get_property (messageMap : gmap string string) (key : string)
  : Property :=
  match messageMap !! key with
  | Some value => Own value
  | None =>
      if bool_decide (key ∈ object_prototype_names)
      then Inherited key
      else Missing
  end.

(** [Object.keys(messageMap)]: the keys present when the call is made. *)
Definition object_keys (messageMap : gmap string string) : list string :=
  (map_to_list messageMap).*1.

(** The body of the [forEach] callback of the disconnect handler:
    [if (messageMap[key] === socket.id) delete messageMap[key]]. *)
Definition purge_key (socket_id : string) (messageMap : gmap string string)
    (key : string) : gmap string string :=
  if decide (messageMap !! key = Some socket_id)
  then delete key messageMap
  else messageMap.

(** [Object.keys(messageMap).forEach(...)] of the disconnect handler: the
    callback runs on the snapshot of keys, each time against the map as the
    earlier iterations left it. *)
Definition purgeSession (socket_id : string) (messageMap : gmap string string)
  : gmap string string :=
  foldl (purge_key socket_id) messageMap (object_keys messageMap).

(** ** The handlers registered by [startWhatsApp] *)

Section Bridge.

(** [process.env.ADMIN_WHATSAPP_NUMBER] *)
Variable ADMIN_WHATSAPP_NUMBER : option string.

(** [DisconnectReason.loggedOut], a status code exported by Baileys. *)
Variable loggedOut : Z.

Local Abbreviation admin := (adminPhone ADMIN_WHATSAPP_NUMBER).

(** The first statement of the connection handler:
    [if (qr) { console.log(...); qrcode.generate(qr, { small: true }) }]. *)
Definition qr_actions (update : WA.ConnectionUpdate) : list Action :=
  if JS.truthy (WA.qr update)
  then [ConsoleLog [JS.Str "🔗 Scan this QR code with WhatsApp:"];
        QrGenerate (default EmptyString (WA.qr update))]
  else [].

(** [sock.ev.on("connection.update", (update) => ...)] *)
Definition on_connection_update (update : WA.ConnectionUpdate) : Run :=
  if decide (WA.connection update = Some "close") then
    match WA.lastDisconnect update with
    | None => threw (qr_actions update) JS.TypeError
    | Some lastDisconnect =>
        let statusCode : option Z :=
          WA.error lastDisconnect ?> WA.output ?> WA.statusCode in
        let shouldReconnect := bool_decide (statusCode <> Some loggedOut) in
        returned
          (qr_actions update
           ++ [ConsoleLog [JS.Str "Connection closed. Reconnecting...";
                           JS.Bool shouldReconnect]]
           ++ (if shouldReconnect then [StartWhatsApp] else []))
    end
  else if decide (WA.connection update = Some "open") then
    returned
      (qr_actions update
       ++ [ConsoleLog [JS.Str "✅ WhatsApp Connected to Victor Springs!"]])
  else returned (qr_actions update).

(** [app.post("/send-whatsapp", async (req, res) => ...)], given
    [req.body] and the outcome of the awaited send. *)
Definition post_send_whatsapp (req_body : JS.Value) (result : SendResult)
  : Run :=
  match JS.member "phone" req_body, JS.member "message" req_body with
  | Some (JS.Str phone), Some message =>
      let id := whatsapp_id phone in
      let send := SockSendMessage id (JS.Object [("text", message)]) in
      match result with
      | Resolved _ =>
          returned
            [send;
             ConsoleLog [JS.Str ("📱 WhatsApp sent to " ++ phone)];
             ResJson 200 (JS.Object [("status", JS.Str "success");
                                     ("method", JS.Str "whatsapp")])]
      | Rejected error =>
          returned
            [send;
             ConsoleError [JS.Str "WhatsApp Error:"; error_value error];
             ResJson 500 (JS.Object [("status", JS.Str "error");
                                     ("method", JS.Str "whatsapp");
                                     ("error", JS.Str (JS.message error))])]
      end
  | _, _ => threw [] JS.TypeError
  end.

(** [contextInfo?.stanzaId] of
    [msg.message?.extendedTextMessage?.contextInfo] *)
Definition quoteId (msg : WA.WAMessage) : option string :=
  WA.message msg ?> WA.extendedTextMessage ?> WA.contextInfo ?> WA.stanzaId.

(** [message.conversation || message.extendedTextMessage?.text || ""] *)
Definition replyText (message : WA.Message) : string :=
  default EmptyString
    (JS.or (WA.conversation message)
           (WA.extendedTextMessage message ?> WA.text)).

(** [quoteId && messageMap[quoteId]].  When [quoteId] is falsy the
    conjunction is [quoteId] itself; [Missing], falsy as well, stands for
    it. *)
Definition quoted_target (messageMap : gmap string string)
    (quoteId : option string) : Property :=
  match quoteId with
  | Some q => if JS.truthy (Some q) then get_property messageMap q else Missing
  | None => Missing
  end.

(** The branch of a routed reply:
    [io.to(targetSocketId).emit("receive_message", {...})], then the log
    line. *)
Definition routed (targetSocketId : Property) (message : WA.Message)
    (quoteId : string) : Run :=
  returned
    [IoToEmit targetSocketId "receive_message"
       (JS.Object [("text", JS.Str (replyText message));
                   ("from", JS.Str "Admin")]);
     ConsoleLog [JS.Str ("↩️ Replied to User via Quote ID: " ++ quoteId)]].

(** The [else] branch: the diagnostic only. *)
Definition unroutable : Run :=
  returned
    [ConsoleLog
       [JS.Str "⚠️ You replied, but didn't quote a specific user message."]].

(** [sock.ev.on("messages.upsert", async (m) => ...)] *)
Definition on_messages_upsert (messageMap : gmap string string)
    (m : WA.Upsert) : gmap string string * Run :=
  match head (WA.messages m) with
  | None => (messageMap, threw [] JS.TypeError)
  | Some msg =>
      if negb (JS.truthy_flag (WA.fromMe (WA.key msg)))
         && bool_decide (WA.remoteJid (WA.key msg) = Some admin)
      then
        let quoteId := quoteId msg in
        if property_truthy (quoted_target messageMap quoteId) then
          match quoteId, WA.message msg with
          | Some q, Some message =>
              let targetSocketId := get_property messageMap q in
              (messageMap, routed targetSocketId message q)
          | _, _ => (messageMap, threw [] JS.TypeError)
          end
        else (messageMap, unroutable)
      else (messageMap, returned [])
  end.

(** The payload of [send_message]: [data.text]. *)
Record ChatData : Type := { text : string }.

(** [socket.on("send_message", async (data) => ...)] for the socket
    [socket_id]; [data] is [None] when the client sent no payload.  The
    handler touches the store only after the awaited send has settled:
    [messageMap] is the store at that moment, [result] what the send
    settled to. *)
Definition on_send_message (messageMap : gmap string string)
    (socket_id : string) (data : option ChatData) (result : SendResult)
  : gmap string string * Run :=
  let failed (acts : list Action) (error : JS.Error) :=
    returned
      (acts
       ++ [ConsoleError [JS.Str "❌ Failed to send message to admin:";
                         error_value error];
           SocketEmit socket_id "error"
             (JS.Object
                [("message",
                  JS.Str "Failed to send message. Please try again.")])]) in
  match data with
  | None => (messageMap, failed [] JS.TypeError)
  | Some data =>
      let send :=
        SockSendMessage admin
          (JS.Object
             [("text",
               JS.Str ("👤 *New Website Guest*"
                       ++ String (ascii_of_nat 10) (text data)))]) in
      match result with
      | Resolved sentMsg =>
          (record (WA.id (WA.key sentMsg)) socket_id messageMap,
           returned
             [send;
              ConsoleLog
                [JS.Str ("📤 Message sent to admin, mapped ID: "
                         ++ WA.id (WA.key sentMsg))]])
      | Rejected error => (messageMap, failed [send] error)
      end
  end.

(** [io.on("connection", (socket) => ...)]: the socket's two listeners are
    registered and the connection is logged. *)
Definition on_connection (socket_id : string) : Run :=
  returned [ConsoleLog [JS.Str "🌐 Web User Connected:"; JS.Str socket_id]].

(** [socket.on("disconnect", () => ...)] for the socket [socket_id]. *)
Definition on_disconnect (messageMap : gmap string string)
    (socket_id : string) : gmap string string * Run :=
  (purgeSession socket_id messageMap,
   returned [ConsoleLog [JS.Str "🌐 Web User Disconnected:"; JS.Str socket_id]]).

(** The handler invocations of a run of the bridge, each with the outcome
    of the send it awaits.  A [SendMessage] stands at the point where its
    send settles; the invocations that one client event starts on handlers
    registered by several calls of [startWhatsApp] are several events. *)
Inductive Event : Type :=
| ConnectionUpdate (update : WA.ConnectionUpdate)
| PostSendWhatsapp (req_body : JS.Value) (result : SendResult)
| MessagesUpsert (m : WA.Upsert)
| Connection (socket_id : string)
| SendMessage (socket_id : string) (data : option ChatData) (result : SendResult)
| Disconnect (socket_id : string).

(** One invocation, run against the current [messageMap].  The call of
    [startWhatsApp] that a close event may make shows in the run of that
    event; it does not touch [messageMap]. *)
Definition handle (messageMap : gmap string string) (ev : Event)
  : gmap string string * Run :=
  match ev with
  | ConnectionUpdate update => (messageMap, on_connection_update update)
  | PostSendWhatsapp req_body result =>
      (messageMap, post_send_whatsapp req_body result)
  | MessagesUpsert m => on_messages_upsert messageMap m
  | Connection socket_id => (messageMap, on_connection socket_id)
  | SendMessage socket_id data result =>
      on_send_message messageMap socket_id data result
  | Disconnect socket_id => on_disconnect messageMap socket_id
  end.

(** A sequence of events handled one after the other: the final
    [messageMap] and the run of each event, in order. *)
Fixpoint handle_all (messageMap : gmap string string) (evs : list Event)
  : gmap string string * list Run :=
  match evs with
  | [] => (messageMap, [])
  | ev :: rest =>
      let '(messageMap', run) := handle messageMap ev in
      let '(final, runs) := handle_all messageMap' rest in
      (final, run :: runs)
  end.

End Bridge.

(** ** What a run shows *)

(** [io.to(room).emit(...)] or [socket.emit(...)]: something is delivered
    to a visitor connection. *)
Definition is_emit (a : Action) : bool :=
  match a with
  | IoToEmit _ _ _ | SocketEmit _ _ _ => true
  | _ => false
  end.

(** An action that reports an error to somebody: [console.error], an
    [error] event, or a response with a status other than 200. *)
Definition is_error_report (a : Action) : bool :=
  match a with
  | ConsoleError _ => true
  | IoToEmit _ event _ | SocketEmit _ event _ => String.eqb event "error"
  | ResJson status _ => negb (status =? 200)%Z
  | _ => false
  end.

(** The run surfaces an error: an exception escapes or an error is
    reported. *)
Definition surfaces_error (r : Run) : Prop :=
  completion r <> Returned \/ Exists (fun a => is_error_report a = true) (actions r).

(** The run calls [startWhatsApp()] again. *)
Definition reconnects (r : Run) : Prop := StartWhatsApp ∈ actions r.

(** ** Sample inputs *)

(** A closure with the logged-out status code of Baileys, 401. *)
Definition logged_out_close : WA.ConnectionUpdate :=
  {| WA.connection := Some "close";
     WA.lastDisconnect :=
       Some {| WA.error :=
                 Some {| WA.output := Some {| WA.statusCode := Some 401%Z |} |} |};
     WA.qr := None |}.

(** A store with one live correlation, and operator messages against it. *)
Definition one_correlation : gmap string string := record "3EB0A1" "socketA" ∅.

Definition operator_message (extended : option WA.ExtendedTextMessage)
  : WA.WAMessage :=
  {| WA.key := {| WA.remoteJid := Some "254754096684@s.whatsapp.net";
                  WA.fromMe := Some false;
                  WA.id := "A5F1" |};
     WA.message := Some {| WA.conversation := None;
                           WA.extendedTextMessage := extended |} |}.

(** A message of another chat. *)
Definition other_chat : WA.WAMessage :=
  {| WA.key := {| WA.remoteJid := Some "254700000001@s.whatsapp.net";
                  WA.fromMe := Some false;
                  WA.id := "B7D2" |};
     WA.message := Some {| WA.conversation := Some "Hi";
                           WA.extendedTextMessage := None |} |}.

Definition quoting (q text : string) : WA.WAMessage :=
  operator_message
    (Some {| WA.text := Some text;
             WA.contextInfo := Some {| WA.stanzaId := Some q |} |}).

(** ** The health endpoint *)

(** [app.get("/health", (req, res) => ...)]: [now] is what
    [new Date().toISOString()] returns and [sockets_size] is
    [io.sockets.sockets.size] when the request is handled. *)
Definition get_health (messageMap : gmap string string) (now : string)
    (sockets_size : nat) : Run :=
  returned
    [ResJson 200
       (JS.Object
          [("status", JS.Str "ok");
           ("service", JS.Str "Victor Springs WhatsApp Bridge");
           ("timestamp", JS.Str now);
           ("active_connections", JS.Number (Z.of_nat sockets_size));
           ("mapped_messages",
            JS.Number (Z.of_nat (List.length (object_keys messageMap))))])].

(** The message that [sock.sendMessage] resolves to for a forwarded visitor
    message to which WhatsApp assigned [id]. *)
Definition sent_as (id : string) : WA.WAMessage :=
  {| WA.key := {| WA.remoteJid := Some "254754096684@s.whatsapp.net";
                  WA.fromMe := Some true;
                  WA.id := id |};
     WA.message := None |}.

(** ** Events that write to the store *)

(** The invocation runs the assignment
    [messageMap[sentMsg.key.id] = socket.id]: a send_message handler with a
    payload whose send resolved. *)
Definition records_correlation (ev : Event) : bool :=
  match ev with
  | SendMessage _ (Some _) (Resolved _) => true
  | _ => false
  end.

(** * Properties *)

(** ** Strings *)

Lemma startsWith_char (c : ascii) (s : string) :
  JS.startsWith (String c EmptyString) s = true <->
  exists rest, s = String c rest.
Proof.
  unfold JS.startsWith. destruct s as [|b rest]; simpl.
  - split; [discriminate | intros [r Hr]; discriminate].
  - destruct (ascii_dec c b) as [->|Hne].
    + split; [eauto | intros _; by destruct rest].
    + split; [discriminate | intros [r Hr]; congruence].
Qed.

Lemma startsWith_char_false (c b : ascii) (rest : string) :
  c <> b -> JS.startsWith (String c EmptyString) (String b rest) = false.
Proof.
  intros Hne. destruct (JS.startsWith (String c EmptyString) (String b rest)) eqn:E;
    [|done].
  apply startsWith_char in E as [r Hr]. congruence.
Qed.

Lemma string_app_assoc (a b c : string) : (a ++ b) ++ c = a ++ (b ++ c).
Proof.
  induction a as [|x a IH]; [done|].
  change (String x ((a ++ b) ++ c) = String x (a ++ (b ++ c))).
  by f_equal.
Qed.

(** ** Address normalisation *)

Lemma formattedPhone_trunk (rest : string) :
  formattedPhone (String "0" rest) = "254" ++ rest.
Proof.
  unfold formattedPhone.
  assert (JS.startsWith "0" (String "0" rest) = true) as ->
    by (apply startsWith_char; eauto).
  reflexivity.
Qed.

Lemma formattedPhone_plus (rest : string) :
  formattedPhone (String "+" rest) = rest.
Proof.
  unfold formattedPhone.
  rewrite startsWith_char_false by discriminate.
  assert (JS.startsWith "+" (String "+" rest) = true) as ->
    by (apply startsWith_char; eauto).
  reflexivity.
Qed.

Lemma formattedPhone_other (phone : string) :
  JS.startsWith "0" phone = false ->
  JS.startsWith "+" phone = false ->
  formattedPhone phone = phone.
Proof. unfold formattedPhone. by intros -> ->. Qed.

(** C6. Address normalisation applies its rules in order: a phone that
    starts with the trunk digit 0 has that one digit replaced by 254;
    otherwise a phone that starts with + has the + stripped; otherwise the
    phone passes through unchanged; in each case @s.whatsapp.net is
    appended.  The three sample numbers normalise to
    254712345678@s.whatsapp.net. *)
Theorem whatsapp_id_rules :
  (forall phone, JS.startsWith "0" phone = true ->
     exists rest, phone = String "0" rest /\
       whatsapp_id phone = "254" ++ rest ++ "@s.whatsapp.net") /\
  (forall phone, JS.startsWith "0" phone = false ->
     JS.startsWith "+" phone = true ->
     exists rest, phone = String "+" rest /\
       whatsapp_id phone = rest ++ "@s.whatsapp.net") /\
  (forall phone, JS.startsWith "0" phone = false ->
     JS.startsWith "+" phone = false ->
     whatsapp_id phone = phone ++ "@s.whatsapp.net") /\
  whatsapp_id "0712345678" = "254712345678@s.whatsapp.net" /\
  whatsapp_id "+254712345678" = "254712345678@s.whatsapp.net" /\
  whatsapp_id "254712345678" = "254712345678@s.whatsapp.net".
Proof.
  repeat split; try reflexivity.
  - intros phone [rest ->]%startsWith_char. exists rest. split; [done|].
    unfold whatsapp_id. rewrite formattedPhone_trunk. apply string_app_assoc.
  - intros phone _ [rest ->]%startsWith_char. exists rest. split; [done|].
    unfold whatsapp_id. by rewrite formattedPhone_plus.
  - intros phone H0 Hplus. unfold whatsapp_id.
    by rewrite formattedPhone_other.
Qed.

Lemma whatsapp_id_rules_witness :
  JS.startsWith "0" "254712345678" = false /\
  JS.startsWith "+" "254712345678" = false /\
  whatsapp_id "254712345678" = "254712345678" ++ "@s.whatsapp.net".
Proof.
  split; [reflexivity|]. split; [reflexivity|].
  apply (proj1 (proj2 (proj2 whatsapp_id_rules)) "254712345678");
    reflexivity.
Defined.

(** ** The operator address *)

Lemma string_head_ne (a b : ascii) (s t : string) (u v : string) :
  a <> b -> String a s ++ u <> String b t ++ v.
Proof.
  intros Hne. change (String a (s ++ u) <> String b (t ++ v)). congruence.
Qed.

(** C10. The operator address is the configured number with a leading +
    stripped (if present) and @s.whatsapp.net appended, and
    254754096684@s.whatsapp.net when the number is not configured.  The
    trunk-prefix rule is never applied: a configured number that starts
    with 0 keeps its leading 0, so the operator address differs from the
    normalised address of the same number. *)
Theorem adminPhone_derivation :
  adminPhone None = "254754096684@s.whatsapp.net" /\
  (forall rest, adminPhone (Some (String "+" rest)) = rest ++ "@s.whatsapp.net") /\
  (forall n, n <> EmptyString -> JS.startsWith "+" n = false ->
     adminPhone (Some n) = n ++ "@s.whatsapp.net") /\
  (forall n, JS.startsWith "0" n = true ->
     adminPhone (Some n) = n ++ "@s.whatsapp.net" /\
     JS.startsWith "0" (adminPhone (Some n)) = true /\
     JS.startsWith "0" (whatsapp_id n) = false /\
     adminPhone (Some n) <> whatsapp_id n).
Proof.
  split; [reflexivity|]. split; [|split].
  - intros rest. unfold adminPhone. simpl JS.truthy. cbv iota.
    assert (JS.startsWith "+" (String "+" rest) = true) as ->
      by (apply startsWith_char; eauto).
    reflexivity.
  - intros n Hn Hplus. unfold adminPhone.
    destruct n as [|c n]; [done|]. simpl JS.truthy. cbv iota.
    by rewrite Hplus.
  - intros n [rest ->]%startsWith_char.
    assert (adminPhone (Some (String "0" rest))
            = String "0" rest ++ "@s.whatsapp.net") as Hadmin.
    { unfold adminPhone. simpl JS.truthy. cbv iota.
      by rewrite startsWith_char_false by discriminate. }
    assert (whatsapp_id (String "0" rest)
            = String "2" ("54" ++ rest) ++ "@s.whatsapp.net") as Hnorm.
    { unfold whatsapp_id. by rewrite formattedPhone_trunk. }
    rewrite Hadmin, Hnorm. split; [done|]. split; [|split].
    + apply startsWith_char. by eexists.
    + change (JS.startsWith "0"
                (String "2" (("54" ++ rest) ++ "@s.whatsapp.net")) = false).
      apply startsWith_char_false. discriminate.
    + apply string_head_ne. discriminate.
Qed.

Lemma adminPhone_derivation_witness :
  JS.startsWith "0" "0754096684" = true /\
  adminPhone (Some "0754096684") = "0754096684@s.whatsapp.net" /\
  whatsapp_id "0754096684" = "254754096684@s.whatsapp.net" /\
  adminPhone (Some "0754096684") <> whatsapp_id "0754096684".
Proof.
  split; [reflexivity|].
  pose proof (proj2 (proj2 (proj2 adminPhone_derivation)) "0754096684"
                eq_refl) as (Ha & _ & _ & Hne).
  split; [exact Ha|]. split; [reflexivity | exact Hne].
Defined.

(** A number configured as the empty string counts as not configured. *)
Lemma adminPhone_empty :
  adminPhone (Some EmptyString) = "254754096684@s.whatsapp.net".
Proof. reflexivity. Qed.

(** ** The correlation store *)

Section Store.

Implicit Types (messageMap : gmap string string) (keys : list string).

Lemma purge_key_lookup socket_id messageMap key (k : string) :
  purge_key socket_id messageMap key !! k =
  if decide (k = key /\ messageMap !! k = Some socket_id)
  then None else messageMap !! k.
Proof.
  unfold purge_key.
  destruct (decide (k = key /\ messageMap !! k = Some socket_id))
    as [[-> Hs]|Hn].
  - rewrite decide_True by done. apply lookup_delete_eq.
  - destruct (decide (messageMap !! key = Some socket_id)) as [Hs|Hs];
      [|done].
    rewrite lookup_delete_ne; [done|]. intros ->. tauto.
Qed.

(** The [forEach] loop over any list of keys: exactly the listed keys whose
    value is the socket id are gone, every other lookup is as before. *)
Lemma purge_loop_lookup socket_id keys : forall messageMap (k : string),
  foldl (purge_key socket_id) messageMap keys !! k =
  if decide (k ∈ keys /\ messageMap !! k = Some socket_id)
  then None else messageMap !! k.
Proof.
  induction keys as [|key keys IH]; intros messageMap k; cbn [foldl].
  - case_decide as H; [|done]. destruct H as [H _].
    by apply elem_of_nil in H.
  - rewrite IH, purge_key_lookup.
    destruct (decide (k = key /\ messageMap !! k = Some socket_id))
      as [[-> Hs]|Hn].
    + rewrite (decide_True (P := key ∈ key :: keys /\ _))
        by (split; [left | done]).
      by destruct (decide _).
    + destruct (decide (k ∈ keys /\ messageMap !! k = Some socket_id))
        as [[Hin Hs]|Hn'].
      * rewrite decide_True; [done|]. split; [by right | done].
      * rewrite decide_False; [done|].
        intros [[->|Hin]%elem_of_cons Hs]; tauto.
Qed.

Lemma elem_of_object_keys messageMap (k : string) :
  k ∈ object_keys messageMap <-> is_Some (messageMap !! k).
Proof.
  unfold object_keys. rewrite list_elem_of_fmap. split.
  - intros [[k' v] [-> Hin]]. apply elem_of_map_to_list in Hin. eauto.
  - intros [v Hv]. exists (k, v). split; [done|].
    by apply elem_of_map_to_list.
Qed.

Lemma purgeSession_lookup socket_id messageMap (k : string) :
  purgeSession socket_id messageMap !! k =
  if decide (messageMap !! k = Some socket_id) then None else messageMap !! k.
Proof.
  unfold purgeSession. rewrite purge_loop_lookup.
  destruct (decide (messageMap !! k = Some socket_id)) as [Hs|Hs].
  - rewrite decide_True; [done|]. split; [|done].
    apply elem_of_object_keys. eauto.
  - rewrite decide_False; [done | tauto].
Qed.

(** The loop computes the map without the entries of the socket. *)
Lemma purgeSession_filter socket_id messageMap :
  purgeSession socket_id messageMap =
  filter (fun kv => kv.2 <> socket_id) messageMap.
Proof.
  apply map_eq. intros k. rewrite purgeSession_lookup.
  destruct (messageMap !! k) as [v|] eqn:Hk.
  - destruct (decide (Some v = Some socket_id)) as [[= ->]|Hne].
    + symmetry. apply map_lookup_filter_None. right. intros v Hv.
      simpl. intros Hneq. rewrite Hk in Hv. congruence.
    + symmetry. apply map_lookup_filter_Some. split; [done|].
      simpl. congruence.
  - rewrite decide_False by done. symmetry.
    apply map_lookup_filter_None. by left.
Qed.

End Store.

(** C3. After the purge that the disconnect of session S performs, resolve
    finds nothing for any message id that was recorded for S, and finds for
    every id recorded for another session what it found before. *)
Theorem purge_on_disconnect (messageMap : gmap string string)
    (session : string) :
  forall messageId : string,
    (resolve messageMap messageId = Some session ->
     resolve (on_disconnect messageMap session).1 messageId = None) /\
    (forall session',
       resolve messageMap messageId = Some session' -> session' <> session ->
     resolve (on_disconnect messageMap session).1 messageId
     = resolve messageMap messageId).
Proof.
  intros messageId. unfold resolve, on_disconnect. simpl.
  rewrite purgeSession_lookup. split.
  - intros H. by rewrite decide_True.
  - intros session' H Hne. rewrite decide_False; [done | congruence].
Qed.

Lemma purge_on_disconnect_witness :
  let messageMap : gmap string string :=
    record "3EB0A1" "socketA" (record "3EB0B2" "socketB" ∅) in
  resolve (on_disconnect messageMap "socketA").1 "3EB0A1" = None /\
  resolve (on_disconnect messageMap "socketA").1 "3EB0B2" = Some "socketB".
Proof.
  intros messageMap.
  destruct (purge_on_disconnect messageMap "socketA" "3EB0A1") as [Ha _].
  destruct (purge_on_disconnect messageMap "socketA" "3EB0B2") as [_ Hb].
  split.
  - apply Ha. reflexivity.
  - rewrite (Hb "socketB"); [reflexivity | reflexivity | discriminate].
Defined.

(** ** Visitor to operator *)

(** C4. When the send to the operator fails, the handler of send_message
    emits an error event to the sending socket and leaves the correlation
    store as it was. *)
Theorem send_failure_atomic (env : option string)
    (messageMap : gmap string string) (session : string) (data : ChatData)
    (error : JS.Error) :
  on_send_message env messageMap session (Some data) (Rejected error)
  = (messageMap,
     returned
       [SockSendMessage (adminPhone env)
          (JS.Object
             [("text",
               JS.Str ("👤 *New Website Guest*"
                       ++ String (ascii_of_nat 10) (text data)))]);
        ConsoleError [JS.Str "❌ Failed to send message to admin:";
                      JS.Str (JS.message error)];
        SocketEmit session "error"
          (JS.Object
             [("message",
               JS.Str "Failed to send message. Please try again.")])])
  /\ (forall messageId,
        resolve (on_send_message env messageMap session (Some data)
                   (Rejected error)).1 messageId
        = resolve messageMap messageId).
Proof. split; reflexivity. Qed.

(** On success the id that WhatsApp assigned is recorded for the socket. *)
Lemma send_success_records (env : option string)
    (messageMap : gmap string string) (session : string) (data : ChatData)
    (sentMsg : WA.WAMessage) :
  resolve
    (on_send_message env messageMap session (Some data) (Resolved sentMsg)).1
    (WA.id (WA.key sentMsg)) = Some session.
Proof.
  unfold resolve, on_send_message, record. simpl. apply lookup_insert_eq.
Qed.

(** ** The HTTP endpoint *)

(** C7. For a request whose body carries a string phone and a message: if
    the send succeeds, the message was sent to the normalised address and
    the response is the JSON success object; if the send fails, the response
    has status 500 and the JSON error object with the error's message. *)
Theorem post_send_whatsapp_responses (req_body : JS.Value)
    (phone : string) (message : JS.Value) :
  JS.member "phone" req_body = Some (JS.Str phone) ->
  JS.member "message" req_body = Some message ->
  (forall sentMsg,
     post_send_whatsapp req_body (Resolved sentMsg)
     = returned
         [SockSendMessage (whatsapp_id phone) (JS.Object [("text", message)]);
          ConsoleLog [JS.Str ("📱 WhatsApp sent to " ++ phone)];
          ResJson 200 (JS.Object [("status", JS.Str "success");
                                  ("method", JS.Str "whatsapp")])]) /\
  (forall error,
     post_send_whatsapp req_body (Rejected error)
     = returned
         [SockSendMessage (whatsapp_id phone) (JS.Object [("text", message)]);
          ConsoleError [JS.Str "WhatsApp Error:"; JS.Str (JS.message error)];
          ResJson 500 (JS.Object [("status", JS.Str "error");
                                  ("method", JS.Str "whatsapp");
                                  ("error", JS.Str (JS.message error))])]).
Proof.
  intros Hphone Hmessage. unfold post_send_whatsapp.
  rewrite Hphone, Hmessage. split; reflexivity.
Qed.

Lemma post_send_whatsapp_responses_witness :
  post_send_whatsapp
    (JS.Object [("phone", JS.Str "0712345678"); ("message", JS.Str "Booked")])
    (Rejected {| JS.message := "Connection Closed" |})
  = returned
      [SockSendMessage "254712345678@s.whatsapp.net"
         (JS.Object [("text", JS.Str "Booked")]);
       ConsoleError [JS.Str "WhatsApp Error:"; JS.Str "Connection Closed"];
       ResJson 500 (JS.Object [("status", JS.Str "error");
                               ("method", JS.Str "whatsapp");
                               ("error", JS.Str "Connection Closed")])].
Proof.
  apply (post_send_whatsapp_responses
           (JS.Object [("phone", JS.Str "0712345678");
                       ("message", JS.Str "Booked")])
           "0712345678" (JS.Str "Booked")); reflexivity.
Defined.

(** C9. [phone.startsWith] is evaluated before the try block: for a body
    without a string phone the handler throws a TypeError before anything
    is sent or answered, so neither JSON response is produced.  A response
    is produced only when phone is a string, and the error response only
    when, in addition, the send itself fails. *)
Theorem post_send_whatsapp_unguarded (req_body : JS.Value)
    (result : SendResult) :
  ((forall phone, JS.member "phone" req_body <> Some (JS.Str phone)) ->
   post_send_whatsapp req_body result = threw [] JS.TypeError) /\
  (forall status body,
     ResJson status body ∈ actions (post_send_whatsapp req_body result) ->
     (exists phone, JS.member "phone" req_body = Some (JS.Str phone)) /\
     (status = 500%Z -> exists error, result = Rejected error) /\
     (status <> 500%Z -> exists sentMsg, result = Resolved sentMsg)).
Proof.
  unfold post_send_whatsapp. split.
  - intros Hphone.
    destruct (JS.member "phone" req_body) as [[| | | |phone| |]|] eqn:E;
      try done; try by destruct (JS.member "message" req_body).
    by destruct (Hphone phone).
  - intros status body Hin.
    destruct (JS.member "phone" req_body) as [[| | | |phone| |]|];
      destruct (JS.member "message" req_body) as [message|];
      simpl in Hin; try by apply elem_of_nil in Hin.
    split; [eauto|].
    destruct result as [sentMsg|error]; simpl in Hin;
      repeat (apply elem_of_cons in Hin as [Hin|Hin]; [try discriminate|]);
      try (by apply elem_of_nil in Hin);
      injection Hin as -> ->; split; intros; eauto; done.
Qed.

Lemma post_send_whatsapp_unguarded_witness :
  post_send_whatsapp (JS.Object [("message", JS.Str "Booked")])
    (Rejected {| JS.message := "Connection Closed" |})
  = threw [] JS.TypeError.
Proof.
  apply (proj1 (post_send_whatsapp_unguarded
                  (JS.Object [("message", JS.Str "Booked")])
                  (Rejected {| JS.message := "Connection Closed" |}))).
  intros phone. discriminate.
Defined.

(** ** Reconnection *)

Lemma qr_actions_quiet (update : WA.ConnectionUpdate) (a : Action) :
  a ∈ qr_actions update -> a <> StartWhatsApp /\ is_error_report a = false.
Proof.
  unfold qr_actions. destruct (JS.truthy (WA.qr update)).
  - intros [->|[->|H]%elem_of_cons]%elem_of_cons; [done | done |].
    by apply elem_of_nil in H.
  - intros H. by apply elem_of_nil in H.
Qed.

(** A close event without its lastDisconnect record makes the handler
    throw on [lastDisconnect.error]. *)
Lemma close_without_lastDisconnect_throws (loggedOut : Z)
    (update : WA.ConnectionUpdate) :
  WA.connection update = Some "close" ->
  WA.lastDisconnect update = None ->
  on_connection_update loggedOut update
  = threw (qr_actions update) JS.TypeError.
Proof.
  intros Hclose Hlast. unfold on_connection_update.
  by rewrite decide_True, Hlast.
Qed.

(** C5, as the handler implements it.  On a close event that carries its
    lastDisconnect record the handler returns normally; it calls
    startWhatsApp again exactly when the status code of the closure is not
    loggedOut; on a logged-out closure it only logs the closure with
    shouldReconnect false.  In no case does it report an error. *)
Theorem close_reconnect_policy (loggedOut : Z) (update : WA.ConnectionUpdate)
    (lastDisconnect : WA.LastDisconnect) :
  WA.connection update = Some "close" ->
  WA.lastDisconnect update = Some lastDisconnect ->
  let statusCode := WA.error lastDisconnect ?> WA.output ?> WA.statusCode in
  let run := on_connection_update loggedOut update in
  completion run = Returned /\
  (reconnects run <-> statusCode <> Some loggedOut) /\
  (statusCode = Some loggedOut ->
   actions run
   = (qr_actions update
      ++ [ConsoleLog [JS.Str "Connection closed. Reconnecting...";
                      JS.Bool false]])%list) /\
  ~ surfaces_error run.
Proof.
  intros Hclose Hlast statusCode run. subst run.
  unfold on_connection_update. rewrite decide_True by done. rewrite Hlast.
  fold statusCode. unfold reconnects, surfaces_error. cbn [actions completion returned].
  split; [done|]. split; [|split].
  - rewrite !elem_of_app. case_bool_decide as Hcode; split.
    + done.
    + intros _. right. right. by left.
    + intros [Hin|[Hin|Hin]].
      * by apply qr_actions_quiet in Hin as [? _].
      * apply elem_of_cons in Hin as [?|Hin]; [done|].
        by apply elem_of_nil in Hin.
      * by apply elem_of_nil in Hin.
    + done.
  - intros Hcode. rewrite bool_decide_eq_false_2 by auto.
    by rewrite app_nil_r.
  - intros [Hc|Hex]; [done|].
    apply Exists_exists in Hex as (a & Hin & Herr).
    rewrite !elem_of_app in Hin. destruct Hin as [Hin|[Hin|Hin]].
    + apply qr_actions_quiet in Hin as [_ Hq]. congruence.
    + apply elem_of_cons in Hin as [->|Hin]; [done|].
      by apply elem_of_nil in Hin.
    + case_bool_decide; [|by apply elem_of_nil in Hin].
      apply elem_of_cons in Hin as [->|Hin]; [done|].
      by apply elem_of_nil in Hin.
Qed.

Lemma close_reconnect_policy_witness :
  ~ reconnects (on_connection_update 401 logged_out_close) /\
  actions (on_connection_update 401 logged_out_close)
  = [ConsoleLog [JS.Str "Connection closed. Reconnecting..."; JS.Bool false]].
Proof.
  destruct (close_reconnect_policy 401 logged_out_close
              {| WA.error :=
                   Some {| WA.output :=
                             Some {| WA.statusCode := Some 401%Z |} |} |}
              eq_refl eq_refl) as (_ & Hre & Hacts & _).
  split.
  - intros H. by apply Hre in H.
  - by apply Hacts.
Defined.

(** C5, the part the handler does not implement: on a logged-out closure
    the handler stops reconnecting but surfaces no error at all. *)
Lemma logged_out_close_surfaces_no_error :
  ~ (~ reconnects (on_connection_update 401 logged_out_close) /\
     surfaces_error (on_connection_update 401 logged_out_close)).
Proof.
  intros [_ [Hc|Hex]].
  - by apply Hc.
  - vm_compute in Hex.
    repeat match goal with
           | H : Exists _ _ |- _ => inversion H; clear H; subst
           end; discriminate.
Qed.

(** ** Operator to visitor *)

Section Upsert.

Variable env : option string.
Variable messageMap : gmap string string.

Implicit Types (msg : WA.WAMessage) (rest : list WA.WAMessage).

Lemma quoteId_message msg (q : string) :
  quoteId msg = Some q -> exists message, WA.message msg = Some message.
Proof. unfold quoteId. destruct (WA.message msg); [eauto | discriminate]. Qed.

Lemma truthy_nonempty (s : string) :
  s <> EmptyString -> JS.truthy (Some s) = true.
Proof. by destruct s. Qed.

Lemma get_property_own (q value : string) :
  resolve messageMap q = Some value -> get_property messageMap q = Own value.
Proof. unfold resolve, get_property. by intros ->. Qed.

Lemma get_property_inherited (q : string) :
  resolve messageMap q = None -> q ∈ object_prototype_names ->
  get_property messageMap q = Inherited q.
Proof.
  unfold resolve, get_property. intros -> Hin.
  by rewrite bool_decide_eq_true_2.
Qed.

Lemma get_property_missing (q : string) :
  resolve messageMap q = None -> q ∉ object_prototype_names ->
  get_property messageMap q = Missing.
Proof.
  unfold resolve, get_property. intros -> Hin.
  by rewrite bool_decide_eq_false_2.
Qed.

(** A quoted reply of the operator whose quoted id is live is routed. *)
Lemma upsert_routed msg rest (q session : string) :
  JS.truthy_flag (WA.fromMe (WA.key msg)) = false ->
  WA.remoteJid (WA.key msg) = Some (adminPhone env) ->
  quoteId msg = Some q -> q <> EmptyString ->
  resolve messageMap q = Some session -> session <> EmptyString ->
  exists message,
    WA.message msg = Some message /\
    on_messages_upsert env messageMap {| WA.messages := msg :: rest |}
    = (messageMap, routed (Own session) message q).
Proof.
  intros Hme Hjid Hq Hq_ne Hsession Hsession_ne.
  destruct (quoteId_message msg q Hq) as [message Hmessage].
  exists message. split; [done|].
  unfold on_messages_upsert. cbn [head WA.messages].
  rewrite Hme, bool_decide_eq_true_2 by done. cbn [negb andb].
  unfold quoted_target. rewrite Hq, (truthy_nonempty q Hq_ne).
  rewrite (get_property_own q session Hsession). cbn [property_truthy].
  by rewrite (truthy_nonempty session Hsession_ne), Hmessage.
Qed.

(** A reply of the operator without a quote is dropped with the
    diagnostic. *)
Lemma upsert_no_quote msg rest :
  JS.truthy_flag (WA.fromMe (WA.key msg)) = false ->
  WA.remoteJid (WA.key msg) = Some (adminPhone env) ->
  quoteId msg = None ->
  on_messages_upsert env messageMap {| WA.messages := msg :: rest |}
  = (messageMap, unroutable).
Proof.
  intros Hme Hjid Hq.
  unfold on_messages_upsert. cbn [head WA.messages].
  rewrite Hme, bool_decide_eq_true_2 by done. cbn [negb andb].
  by rewrite Hq.
Qed.

(** So is a reply that quotes an id which is neither in the store nor the
    name of a member of [Object.prototype]. *)
Lemma upsert_unknown_quote msg rest (q : string) :
  JS.truthy_flag (WA.fromMe (WA.key msg)) = false ->
  WA.remoteJid (WA.key msg) = Some (adminPhone env) ->
  quoteId msg = Some q ->
  resolve messageMap q = None -> q ∉ object_prototype_names ->
  on_messages_upsert env messageMap {| WA.messages := msg :: rest |}
  = (messageMap, unroutable).
Proof.
  intros Hme Hjid Hq Hnone Hname.
  unfold on_messages_upsert. cbn [head WA.messages].
  rewrite Hme, bool_decide_eq_true_2 by done. cbn [negb andb].
  unfold quoted_target. rewrite Hq.
  destruct (JS.truthy (Some q)); [|done].
  by rewrite (get_property_missing q Hnone Hname).
Qed.

(** A reply that quotes the name of a member of [Object.prototype] which
    the store does not hold takes the routed branch: the read
    [messageMap[quoteId]] gives the inherited member, and that is the room
    of the emit. *)
Lemma upsert_inherited msg rest (q : string) :
  JS.truthy_flag (WA.fromMe (WA.key msg)) = false ->
  WA.remoteJid (WA.key msg) = Some (adminPhone env) ->
  quoteId msg = Some q ->
  resolve messageMap q = None -> q ∈ object_prototype_names ->
  exists message,
    WA.message msg = Some message /\
    on_messages_upsert env messageMap {| WA.messages := msg :: rest |}
    = (messageMap, routed (Inherited q) message q).
Proof.
  intros Hme Hjid Hq Hnone Hname.
  destruct (quoteId_message msg q Hq) as [message Hmessage].
  exists message. split; [done|].
  unfold on_messages_upsert. cbn [head WA.messages].
  rewrite Hme, bool_decide_eq_true_2 by done. cbn [negb andb].
  unfold quoted_target. rewrite Hq.
  assert (JS.truthy (Some q) = true) as ->.
  { apply truthy_nonempty. intros ->.
    apply (bool_decide_eq_true_2 _) in Hname. by vm_compute in Hname. }
  rewrite (get_property_inherited q Hnone Hname). cbn [property_truthy].
  by rewrite Hmessage.
Qed.

(** The presence tests are truthiness tests: a quoted id that is the empty
    string, or one that the store maps to the empty string, counts as
    absent. *)
Lemma upsert_empty_ids_unroutable msg rest (q : string) :
  JS.truthy_flag (WA.fromMe (WA.key msg)) = false ->
  WA.remoteJid (WA.key msg) = Some (adminPhone env) ->
  quoteId msg = Some q ->
  q = EmptyString \/ resolve messageMap q = Some EmptyString ->
  on_messages_upsert env messageMap {| WA.messages := msg :: rest |}
  = (messageMap, unroutable).
Proof.
  intros Hme Hjid Hq Hempty.
  unfold on_messages_upsert. cbn [head WA.messages].
  rewrite Hme, bool_decide_eq_true_2 by done. cbn [negb andb].
  unfold quoted_target. rewrite Hq.
  destruct Hempty as [->|HS]; [done|].
  destruct (JS.truthy (Some q)); [|done].
  by rewrite (get_property_own q EmptyString HS).
Qed.

(** For a non-empty batch the handler runs to completion: the accesses to
    [msg.message] of the routed branch are guarded by the quote test. *)
Lemma upsert_returns msg rest :
  completion
    (on_messages_upsert env messageMap {| WA.messages := msg :: rest |}).2
  = Returned.
Proof.
  unfold on_messages_upsert. cbn [head WA.messages].
  destruct (negb _ && _); [|done].
  destruct (property_truthy _) eqn:Htruthy; [|done].
  destruct (quoteId msg) as [q|] eqn:Hq; [|done].
  by destruct (quoteId_message msg q Hq) as [message ->].
Qed.

(** The handler never writes to the store. *)
Lemma upsert_store_unchanged (m : WA.Upsert) :
  (on_messages_upsert env messageMap m).1 = messageMap.
Proof.
  unfold on_messages_upsert.
  repeat match goal with
         | |- context [match ?x with _ => _ end] => destruct x
         end; reflexivity.
Qed.

End Upsert.

(** The text that is delivered is the text of the message, whichever shape
    carries it. *)
Lemma replyText_plain (message : WA.Message) (t : string) :
  WA.conversation message = Some t -> t <> EmptyString ->
  replyText message = t.
Proof.
  intros Hc Hne. unfold replyText, JS.or.
  by rewrite Hc, truthy_nonempty.
Qed.

Lemma replyText_extended (message : WA.Message)
    (ext : WA.ExtendedTextMessage) (t : string) :
  JS.truthy (WA.conversation message) = false ->
  WA.extendedTextMessage message = Some ext -> WA.text ext = Some t ->
  replyText message = t.
Proof.
  intros Hc Hext Ht. unfold replyText, JS.or.
  by rewrite Hc, Hext; cbn [JS.chain]; rewrite Ht.
Qed.




(** The text of a quoted reply that also carries a conversation text is the
    conversation text. *)
Lemma replyText_conversation_first (c t q : string) :
  c <> EmptyString ->
  replyText
    {| WA.conversation := Some c;
       WA.extendedTextMessage :=
         Some {| WA.text := Some t;
                 WA.contextInfo := Some {| WA.stanzaId := Some q |} |} |}
  = c.
Proof. intros Hc. by apply replyText_plain. Qed.


(** For every other id C2 holds of the handler: a message of the operator
    that carries no quote, or quotes an id that is not in the store and is
    not the name of a member of [Object.prototype], changes nothing and
    only logs the diagnostic. *)
Lemma unknown_quote_dropped (env : option string)
    (messageMap : gmap string string) (msg : WA.WAMessage)
    (rest : list WA.WAMessage) :
  JS.truthy_flag (WA.fromMe (WA.key msg)) = false ->
  WA.remoteJid (WA.key msg) = Some (adminPhone env) ->
  (quoteId msg = None \/
   exists q, quoteId msg = Some q /\ resolve messageMap q = None /\
             q ∉ object_prototype_names) ->
  on_messages_upsert env messageMap {| WA.messages := msg :: rest |}
  = (messageMap,
     returned
       [ConsoleLog
          [JS.Str "⚠️ You replied, but didn't quote a specific user message."]]).
Proof.
  intros Hme Hjid [Hq|(q & Hq & Hnone & Hname)].
  - by apply upsert_no_quote.
  - by eapply upsert_unknown_quote.
Qed.

(** ** The store under operator traffic *)

Lemma handle_all_upserts (env : option string) (loggedOut : Z)
    (messageMap : gmap string string) (ms : list WA.Upsert) :
  handle_all env loggedOut messageMap (MessagesUpsert <$> ms)
  = (messageMap, (fun m => (on_messages_upsert env messageMap m).2) <$> ms).
Proof.
  induction ms as [|m ms IH]; [reflexivity|].
  cbn [fmap list_fmap handle_all handle].
  pose proof (upsert_store_unchanged env messageMap m) as Hstore.
  destruct (on_messages_upsert env messageMap m) as [messageMap' run].
  simpl in Hstore. subst messageMap'.
  change (list_fmap _ _ MessagesUpsert ms) with (MessagesUpsert <$> ms).
  rewrite IH. reflexivity.
Qed.




(** * Further properties *)

(** ** The purge loop *)

Section Purge.

Implicit Types (messageMap : gmap string string) (socket_id : string).

(** X1. The disconnect of a socket only removes entries, leaves none of the
    socket behind, and so never lets the store grow. *)
Theorem disconnect_only_removes messageMap socket_id :
  (on_disconnect messageMap socket_id).1 ⊆ messageMap /\
  (forall messageId,
     resolve (on_disconnect messageMap socket_id).1 messageId
     <> Some socket_id) /\
  size (on_disconnect messageMap socket_id).1 <= size messageMap.
Proof.
  cbn [on_disconnect fst].
  assert (purgeSession socket_id messageMap ⊆ messageMap) as Hsub.
  { rewrite purgeSession_filter. apply map_filter_subseteq. }
  split; [done|]. split; [|by apply map_subseteq_size].
  intros messageId. unfold resolve. rewrite purgeSession_lookup.
  case_decide; [done | congruence].
Qed.

(** X2. Purging twice is purging once, and purging a socket that has no entry
    changes nothing. *)
Theorem purgeSession_idempotent messageMap socket_id :
  purgeSession socket_id (purgeSession socket_id messageMap)
  = purgeSession socket_id messageMap /\
  ((forall messageId, messageMap !! messageId <> Some socket_id) ->
   purgeSession socket_id messageMap = messageMap).
Proof.
  split.
  - apply map_eq. intros k. rewrite !purgeSession_lookup.
    destruct (decide (messageMap !! k = Some socket_id)) as [Hk|Hk].
    + by rewrite decide_False.
    + by rewrite decide_False.
  - intros Hnone. apply map_eq. intros k. rewrite purgeSession_lookup.
    rewrite decide_False; [done | apply Hnone].
Qed.

(** X3. The purges of two sockets commute. *)
Theorem purgeSession_commute messageMap (socket_a socket_b : string) :
  purgeSession socket_a (purgeSession socket_b messageMap)
  = purgeSession socket_b (purgeSession socket_a messageMap).
Proof.
  apply map_eq. intros k. rewrite !purgeSession_lookup.
  destruct (decide (messageMap !! k = Some socket_a)) as [Ha|Ha];
    destruct (decide (messageMap !! k = Some socket_b)) as [Hb|Hb];
    cbv iota;
    repeat match goal with
           | |- context [decide ?P] => destruct (decide P)
           end; congruence.
Qed.

(** X4. The result of the loop does not depend on the order in which
    [Object.keys] lists the keys, nor on keys listed twice or keys that are
    not in the map: any list that covers the keys of the map gives the same
    store. *)
Theorem purge_order_independent messageMap socket_id (keys : list string) :
  (forall k : string, is_Some (messageMap !! k) -> k ∈ keys) ->
  foldl (purge_key socket_id) messageMap keys
  = purgeSession socket_id messageMap.
Proof.
  intros Hcover. apply map_eq. intros k.
  rewrite purge_loop_lookup, purgeSession_lookup.
  destruct (decide (messageMap !! k = Some socket_id)) as [Hk|Hk].
  - rewrite decide_True; [done|]. split; [|done]. apply Hcover. eauto.
  - rewrite decide_False; [done | tauto].
Qed.

End Purge.

Lemma purgeSession_idempotent_witness :
  purgeSession "socketB" one_correlation = one_correlation.
Proof.
  apply (proj2 (purgeSession_idempotent one_correlation "socketB")).
  intros messageId. unfold one_correlation, record.
  destruct (decide (messageId = "3EB0A1")) as [->|Hne].
  - rewrite lookup_insert_eq. discriminate.
  - rewrite lookup_insert_ne by done. by rewrite lookup_empty.
Defined.

Lemma purge_order_independent_witness :
  let messageMap : gmap string string :=
    record "3EB0A1" "socketA" (record "3EB0B2" "socketB" ∅) in
  foldl (purge_key "socketA") messageMap ["3EB0B2"; "7F00"; "3EB0A1"; "3EB0B2"]
  = purgeSession "socketA" messageMap.
Proof.
  intros messageMap.
  apply (purge_order_independent messageMap "socketA"
           ["3EB0B2"; "7F00"; "3EB0A1"; "3EB0B2"]).
  intros k [v Hk]. unfold messageMap, record in Hk.
  destruct (decide (k = "3EB0A1")) as [->|Hne1].
  - right. right. left.
  - rewrite lookup_insert_ne in Hk by done.
    destruct (decide (k = "3EB0B2")) as [->|Hne2].
    + left.
    + rewrite lookup_insert_ne in Hk by done.
      by rewrite lookup_empty in Hk.
Defined.

(** ** The send_message handler *)

Section SendMessageHandler.

Variable env : option string.

Implicit Types (messageMap : gmap string string) (socket_id : string).

(** The payload of the error event of the handler. *)
Local Abbreviation failure_payload :=
  (JS.Object
     [("message", JS.Str "Failed to send message. Please try again.")]).

(** X5. The handler never lets an exception escape.  It emits the error event
    to the sender exactly when the payload is missing or the send rejects,
    and then the store is as before; otherwise the id of the sent message is
    recorded for the sender.  Without a payload nothing is sent to the
    operator. *)
Theorem send_message_outcomes messageMap socket_id (data : option ChatData)
    (result : SendResult) :
  let outcome := on_send_message env messageMap socket_id data result in
  completion outcome.2 = Returned /\
  (SocketEmit socket_id "error" failure_payload ∈ actions outcome.2 <->
   data = None \/ exists error, result = Rejected error) /\
  (data = None \/ (exists error, result = Rejected error) ->
   outcome.1 = messageMap) /\
  (forall d sentMsg, data = Some d -> result = Resolved sentMsg ->
   outcome.1 = record (WA.id (WA.key sentMsg)) socket_id messageMap) /\
  (data = None ->
   forall jid content, SockSendMessage jid content ∉ actions outcome.2).
Proof.
  intros outcome. subst outcome.
  destruct data as [d|]; [destruct result as [sentMsg|error]|];
    cbn [on_send_message fst snd actions completion returned app].
  - split; [done|]. split; [|split; [|split]].
    + split.
      * intros [?|[?|H]%elem_of_cons]%elem_of_cons; [done | done |].
        by apply elem_of_nil in H.
      * intros [?|[error ?]]; done.
    + intros [?|[error ?]]; done.
    + by intros d' sentMsg' [= <-] [= <-].
    + done.
  - split; [done|]. split; [|split; [|split]].
    + split; [eauto|]. intros _. right. right. left.
    + done.
    + by intros d' sentMsg' _ [=].
    + done.
  - split; [done|]. split; [|split; [|split]].
    + split; [eauto|]. intros _. right. left.
    + done.
    + by intros d' sentMsg' [=].
    + intros _ jid content [?|[?|H]%elem_of_cons]%elem_of_cons;
        [done | done |].
      by apply elem_of_nil in H.
Qed.

(** X6. A successful send changes the lookup of the assigned id only: the last
    sender of an id wins, every other id resolves as before. *)
Theorem send_success_lookup messageMap socket_id (d : ChatData)
    (sentMsg : WA.WAMessage) (messageId : string) :
  resolve
    (on_send_message env messageMap socket_id (Some d) (Resolved sentMsg)).1
    messageId
  = if decide (messageId = WA.id (WA.key sentMsg))
    then Some socket_id
    else resolve messageMap messageId.
Proof.
  cbn [on_send_message fst]. unfold resolve, record.
  case_decide as Hid.
  - subst messageId. apply lookup_insert_eq.
  - by apply lookup_insert_ne.
Qed.

(** X7. Two sessions whose sends were given different ids do not collide: each
    id resolves to its own sender, and the store is the same whichever send
    completed first. *)
Theorem two_sessions_no_collision messageMap (socket_a socket_b : string)
    (da db : ChatData) (sent_a sent_b : WA.WAMessage) :
  WA.id (WA.key sent_a) <> WA.id (WA.key sent_b) ->
  let send messageMap socket_id d sentMsg :=
    (on_send_message env messageMap socket_id (Some d) (Resolved sentMsg)).1 in
  let a_then_b := send (send messageMap socket_a da sent_a) socket_b db sent_b in
  let b_then_a := send (send messageMap socket_b db sent_b) socket_a da sent_a in
  resolve a_then_b (WA.id (WA.key sent_a)) = Some socket_a /\
  resolve a_then_b (WA.id (WA.key sent_b)) = Some socket_b /\
  a_then_b = b_then_a.
Proof.
  intros Hne send a_then_b b_then_a.
  subst a_then_b b_then_a send. cbn [on_send_message fst].
  unfold resolve, record. split; [|split].
  - rewrite lookup_insert_ne by done. apply lookup_insert_eq.
  - apply lookup_insert_eq.
  - by apply insert_insert_ne.
Qed.

End SendMessageHandler.

Lemma send_message_outcomes_witness :
  (on_send_message None one_correlation "socketB" None
     (Rejected {| JS.message := "Connection Closed" |})).1
  = one_correlation.
Proof.
  apply (proj1 (proj2 (proj2
           (send_message_outcomes None one_correlation "socketB" None
              (Rejected {| JS.message := "Connection Closed" |}))))).
  left. reflexivity.
Defined.

(** Two sent messages with the ids that WhatsApp assigned to them. *)
Lemma two_sessions_no_collision_witness :
  let sent (id : string) : WA.WAMessage :=
    {| WA.key := {| WA.remoteJid := Some "254754096684@s.whatsapp.net";
                    WA.fromMe := Some true;
                    WA.id := id |};
       WA.message := None |} in
  let send messageMap socket_id d sentMsg :=
    (on_send_message None messageMap socket_id (Some d) (Resolved sentMsg)).1 in
  resolve
    (send (send ∅ "socketA" {| text := "Hi" |} (sent "3EB0A1"))
       "socketB" {| text := "Hello" |} (sent "3EB0B2"))
    "3EB0A1"
  = Some "socketA".
Proof.
  intros sent send.
  apply (two_sessions_no_collision None ∅ "socketA" "socketB"
           {| text := "Hi" |} {| text := "Hello" |}
           (sent "3EB0A1") (sent "3EB0B2")).
  discriminate.
Defined.

(** ** From visitor to operator and back *)

Section RoundTrip.

Variable env : option string.

Implicit Types (messageMap : gmap string string) (msg : WA.WAMessage).

(** X8. A visitor's message is forwarded and given an id; when the first
    message of a later batch is a reply of the operator that quotes that
    id, the handler emits receive_message, with from Admin and the text of
    the reply, to the room of that visitor's socket id. *)
Theorem send_then_reply_delivered messageMap (socket_id : string)
    (d : ChatData) (sentMsg : WA.WAMessage) msg (rest : list WA.WAMessage) :
  WA.id (WA.key sentMsg) <> EmptyString -> socket_id <> EmptyString ->
  JS.truthy_flag (WA.fromMe (WA.key msg)) = false ->
  WA.remoteJid (WA.key msg) = Some (adminPhone env) ->
  quoteId msg = Some (WA.id (WA.key sentMsg)) ->
  let sent :=
    (on_send_message env messageMap socket_id (Some d) (Resolved sentMsg)).1 in
  exists message,
    WA.message msg = Some message /\
    on_messages_upsert env sent {| WA.messages := msg :: rest |}
    = (sent,
       returned
         [IoToEmit (Own socket_id) "receive_message"
            (JS.Object [("text", JS.Str (replyText message));
                        ("from", JS.Str "Admin")]);
          ConsoleLog
            [JS.Str ("↩️ Replied to User via Quote ID: "
                     ++ WA.id (WA.key sentMsg))]]).
Proof.
  intros Hid Hsocket Hme Hjid Hquote sent.
  apply upsert_routed; try done.
  subst sent. cbn [on_send_message fst]. unfold resolve, record.
  apply lookup_insert_eq.
Qed.

(** X9. A reply that quotes a message of a visitor who has disconnected.
    When the send of that message had settled before the disconnect handler
    ran, its entry was purged and the reply is dropped with the diagnostic
    (the id, assigned by WhatsApp, not being the name of a member of
    [Object.prototype]).  When the disconnect handler ran while the send
    was still awaited, the entry is written after the purge, and the reply
    is emitted to the room of the socket that is gone. *)
Theorem reply_after_disconnect_dropped messageMap (socket_id : string)
    (d : ChatData) (sentMsg : WA.WAMessage) msg (rest : list WA.WAMessage) :
  JS.truthy_flag (WA.fromMe (WA.key msg)) = false ->
  WA.remoteJid (WA.key msg) = Some (adminPhone env) ->
  quoteId msg = Some (WA.id (WA.key sentMsg)) ->
  (WA.id (WA.key sentMsg) ∉ object_prototype_names ->
   let sent :=
     (on_send_message env messageMap socket_id (Some d)
        (Resolved sentMsg)).1 in
   let left := (on_disconnect sent socket_id).1 in
   on_messages_upsert env left {| WA.messages := msg :: rest |}
   = (left,
      returned
        [ConsoleLog
           [JS.Str "⚠️ You replied, but didn't quote a specific user message."]]))
  /\
  (WA.id (WA.key sentMsg) <> EmptyString -> socket_id <> EmptyString ->
   let left := (on_disconnect messageMap socket_id).1 in
   let sent :=
     (on_send_message env left socket_id (Some d) (Resolved sentMsg)).1 in
   exists message,
     WA.message msg = Some message /\
     on_messages_upsert env sent {| WA.messages := msg :: rest |}
     = (sent,
        returned
          [IoToEmit (Own socket_id) "receive_message"
             (JS.Object [("text", JS.Str (replyText message));
                         ("from", JS.Str "Admin")]);
           ConsoleLog
             [JS.Str ("↩️ Replied to User via Quote ID: "
                      ++ WA.id (WA.key sentMsg))]])).
Proof.
  intros Hme Hjid Hquote. split.
  - intros Hname sent left.
    eapply upsert_unknown_quote; try done.
    subst left sent. cbn [on_send_message on_disconnect fst].
    unfold resolve, record. rewrite purgeSession_lookup.
    rewrite decide_True; [done|]. apply lookup_insert_eq.
  - intros Hid Hsocket left sent.
    apply upsert_routed; try done.
    subst sent. cbn [on_send_message fst]. unfold resolve, record.
    apply lookup_insert_eq.
Qed.

End RoundTrip.

(** The message that WhatsApp returns for a forwarded visitor message. *)
Lemma send_then_reply_delivered_witness :
  let sentMsg : WA.WAMessage :=
    {| WA.key := {| WA.remoteJid := Some "254754096684@s.whatsapp.net";
                    WA.fromMe := Some true;
                    WA.id := "3EB0C3" |};
       WA.message := None |} in
  let sent :=
    (on_send_message None ∅ "socketC" (Some {| text := "Is it free?" |})
       (Resolved sentMsg)).1 in
  exists message,
    WA.message (quoting "3EB0C3" "Yes") = Some message /\
    on_messages_upsert None sent {| WA.messages := [quoting "3EB0C3" "Yes"] |}
    = (sent,
       returned
         [IoToEmit (Own "socketC") "receive_message"
            (JS.Object [("text", JS.Str (replyText message));
                        ("from", JS.Str "Admin")]);
          ConsoleLog
            [JS.Str ("↩️ Replied to User via Quote ID: " ++ "3EB0C3")]]).
Proof.
  intros sentMsg sent.
  apply (send_then_reply_delivered None ∅ "socketC"
           {| text := "Is it free?" |} sentMsg (quoting "3EB0C3" "Yes") []);
    [discriminate | discriminate | reflexivity | reflexivity | reflexivity].
Defined.

Lemma reply_after_disconnect_dropped_witness :
  on_messages_upsert None
    (on_disconnect
       (on_send_message None ∅ "socketC" (Some {| text := "Is it free?" |})
          (Resolved (sent_as "3EB0C3"))).1 "socketC").1
    {| WA.messages := [quoting "3EB0C3" "Yes"] |}
  = ((on_disconnect
        (on_send_message None ∅ "socketC" (Some {| text := "Is it free?" |})
           (Resolved (sent_as "3EB0C3"))).1 "socketC").1,
     returned
       [ConsoleLog
          [JS.Str "⚠️ You replied, but didn't quote a specific user message."]])
  /\
  exists message,
    WA.message (quoting "3EB0C3" "Yes") = Some message /\
    on_messages_upsert None
      (on_send_message None (on_disconnect ∅ "socketC").1 "socketC"
         (Some {| text := "Is it free?" |}) (Resolved (sent_as "3EB0C3"))).1
      {| WA.messages := [quoting "3EB0C3" "Yes"] |}
    = ((on_send_message None (on_disconnect ∅ "socketC").1 "socketC"
          (Some {| text := "Is it free?" |}) (Resolved (sent_as "3EB0C3"))).1,
       returned
         [IoToEmit (Own "socketC") "receive_message"
            (JS.Object [("text", JS.Str (replyText message));
                        ("from", JS.Str "Admin")]);
          ConsoleLog
            [JS.Str ("↩️ Replied to User via Quote ID: " ++ "3EB0C3")]]).
Proof.
  destruct (reply_after_disconnect_dropped None ∅ "socketC"
              {| text := "Is it free?" |} (sent_as "3EB0C3")
              (quoting "3EB0C3" "Yes") [] eq_refl eq_refl eq_refl)
    as [Hdropped Hrouted].
  split.
  - apply Hdropped. apply (bool_decide_unpack _). by vm_compute.
  - apply Hrouted; discriminate.
Defined.

(** ** The messages.upsert handler *)

Section UpsertHandler.

Variable env : option string.
Variable messageMap : gmap string string.

Implicit Types (msg : WA.WAMessage) (m : WA.Upsert).

Lemma upsert_ignored msg (rest : list WA.WAMessage) :
  JS.truthy_flag (WA.fromMe (WA.key msg)) = true \/
  WA.remoteJid (WA.key msg) <> Some (adminPhone env) ->
  on_messages_upsert env messageMap {| WA.messages := msg :: rest |}
  = (messageMap, returned []).
Proof.
  intros Hother. unfold on_messages_upsert. cbn [head WA.messages].
  destruct Hother as [->|Hjid]; [done|].
  rewrite (bool_decide_eq_false_2 _ Hjid). by rewrite andb_false_r.
Qed.

(** X10. A message that the bridge itself sent, or that does not come from the
    operator address, is ignored without a trace: the store is as before,
    nothing is emitted and nothing is logged. *)
Theorem upsert_ignores_others msg (rest : list WA.WAMessage) :
  JS.truthy_flag (WA.fromMe (WA.key msg)) = true \/
  WA.remoteJid (WA.key msg) <> Some (adminPhone env) ->
  on_messages_upsert env messageMap {| WA.messages := msg :: rest |}
  = (messageMap, {| actions := []; completion := Returned |}).
Proof. apply upsert_ignored. Qed.

(** X11. An empty batch makes the handler throw on [msg.key]; any other batch is
    handled to completion, and only its first message is looked at. *)
Theorem upsert_batch m :
  (completion (on_messages_upsert env messageMap m).2 = Returned <->
   WA.messages m <> []) /\
  (forall msg rest, WA.messages m = msg :: rest ->
   on_messages_upsert env messageMap m
   = on_messages_upsert env messageMap {| WA.messages := [msg] |}).
Proof.
  destruct m as [[|msg rest]]; cbn [WA.messages]; split.
  - split; [intros [=] | done].
  - intros msg rest [=].
  - split; [done | intros _; apply upsert_returns].
  - by intros msg' rest' [= <- <-].
Qed.

(** X12. Whatever the batch, the handler emits only [receive_message],
    only when the first message comes from the operator and quotes an id,
    and only to what [messageMap[quoteId]] gives: the socket id that the
    store holds for the quoted id, or, for a quoted id that is not in the
    store but names a member of [Object.prototype], that inherited
    member. *)
Theorem upsert_emit_sound m (room : Property) (event : string)
    (payload : JS.Value) :
  IoToEmit room event payload ∈ actions (on_messages_upsert env messageMap m).2 ->
  event = "receive_message" /\
  exists msg q message,
    head (WA.messages m) = Some msg /\
    JS.truthy_flag (WA.fromMe (WA.key msg)) = false /\
    WA.remoteJid (WA.key msg) = Some (adminPhone env) /\
    quoteId msg = Some q /\
    WA.message msg = Some message /\
    payload = JS.Object [("text", JS.Str (replyText message));
                         ("from", JS.Str "Admin")] /\
    ((exists socket_id,
        room = Own socket_id /\ resolve messageMap q = Some socket_id) \/
     (room = Inherited q /\ resolve messageMap q = None /\
      q ∈ object_prototype_names)).
Proof.
  unfold on_messages_upsert.
  destruct (head (WA.messages m)) as [msg|];
    [|by intros H; apply elem_of_nil in H].
  destruct (JS.truthy_flag (WA.fromMe (WA.key msg))) eqn:Hme;
    [by intros H; apply elem_of_nil in H|].
  case_bool_decide as Hjid; cbn [negb andb];
    [|by intros H; apply elem_of_nil in H].
  destruct (property_truthy _) eqn:Htruthy.
  2:{ cbn. intros [?|H]%elem_of_cons; [done | by apply elem_of_nil in H]. }
  destruct (quoteId msg) as [q|] eqn:Hq; [|done].
  destruct (quoteId_message msg q Hq) as [message Hmessage].
  rewrite Hmessage. cbn [routed returned actions snd].
  intros [[= -> -> ->]|[?|H]%elem_of_cons]%elem_of_cons;
    [|done | by apply elem_of_nil in H].
  split; [done|]. exists msg, q, message. repeat (split; [done|]).
  unfold get_property, resolve.
  destruct (messageMap !! q) as [socket_id|] eqn:Hlookup; [left; eauto|].
  case_bool_decide as Hname; [by right|].
  exfalso. revert Htruthy. unfold quoted_target, get_property.
  rewrite Hlookup, (bool_decide_eq_false_2 _ Hname).
  by destruct (JS.truthy (Some q)).
Qed.

(** X13. No inbound message makes the handler surface an error: it returns
    normally and reports nothing to anybody. *)
Theorem upsert_never_surfaces_error msg (rest : list WA.WAMessage) :
  ~ surfaces_error
      (on_messages_upsert env messageMap {| WA.messages := msg :: rest |}).2.
Proof.
  intros [Hc|Hex].
  - apply Hc. apply upsert_returns.
  - apply Exists_exists in Hex as (a & Hin & Herr).
    revert Hin. unfold on_messages_upsert. cbn [head WA.messages].
    repeat match goal with
           | |- context [match ?x with _ => _ end] => destruct x
           end; cbn;
      repeat (intros [->|Hin]%elem_of_cons; [done|revert Hin]);
      intros Hin; by apply elem_of_nil in Hin.
Qed.

(** X14. Quote metadata lives in [extendedTextMessage] only: a message without
    that part is never delivered to a visitor, whatever its conversation
    text. *)
Theorem plain_message_never_routed msg (rest : list WA.WAMessage) :
  WA.message msg ?> WA.extendedTextMessage = None ->
  Forall (fun a => is_emit a = false)
    (actions
       (on_messages_upsert env messageMap {| WA.messages := msg :: rest |}).2).
Proof.
  intros Hext.
  assert (quoteId msg = None) as Hq by (unfold quoteId; by rewrite Hext).
  destruct (JS.truthy_flag (WA.fromMe (WA.key msg))) eqn:Hme.
  - rewrite upsert_ignored by auto. constructor.
  - destruct (decide (WA.remoteJid (WA.key msg) = Some (adminPhone env)))
      as [Hjid|Hjid].
    + rewrite upsert_no_quote by auto. by repeat constructor.
    + rewrite upsert_ignored by auto. constructor.
Qed.

End UpsertHandler.

(** A message of another chat. *)
Lemma upsert_ignores_others_witness :
  on_messages_upsert None one_correlation
    {| WA.messages :=
         [ {| WA.key := {| WA.remoteJid := Some "254700000001@s.whatsapp.net";
                           WA.fromMe := Some false;
                           WA.id := "B7D2" |};
              WA.message := None |} ] |}
  = (one_correlation, {| actions := []; completion := Returned |}).
Proof.
  apply (upsert_ignores_others None one_correlation
           {| WA.key := {| WA.remoteJid := Some "254700000001@s.whatsapp.net";
                           WA.fromMe := Some false;
                           WA.id := "B7D2" |};
              WA.message := None |} []).
  right. discriminate.
Defined.

Lemma upsert_batch_witness :
  on_messages_upsert None one_correlation
    {| WA.messages :=
         [quoting "3EB0A1" "Hello"; quoting "3EB0A1" "Second"] |}
  = on_messages_upsert None one_correlation
      {| WA.messages := [quoting "3EB0A1" "Hello"] |}.
Proof.
  apply (proj2 (upsert_batch None one_correlation
                  {| WA.messages :=
                       [quoting "3EB0A1" "Hello";
                        quoting "3EB0A1" "Second"] |})
           (quoting "3EB0A1" "Hello") [quoting "3EB0A1" "Second"]).
  reflexivity.
Defined.

Lemma upsert_emit_sound_witness :
  exists msg q message,
    head [quoting "3EB0A1" "Hello"] = Some msg /\
    JS.truthy_flag (WA.fromMe (WA.key msg)) = false /\
    WA.remoteJid (WA.key msg) = Some (adminPhone None) /\
    quoteId msg = Some q /\
    WA.message msg = Some message /\
    JS.Object [("text", JS.Str "Hello"); ("from", JS.Str "Admin")]
    = JS.Object [("text", JS.Str (replyText message));
                 ("from", JS.Str "Admin")] /\
    ((exists socket_id,
        Own "socketA" = Own socket_id /\
        resolve one_correlation q = Some socket_id) \/
     (Own "socketA" = Inherited q /\ resolve one_correlation q = None /\
      q ∈ object_prototype_names)).
Proof.
  apply (upsert_emit_sound None one_correlation
           {| WA.messages := [quoting "3EB0A1" "Hello"] |}
           (Own "socketA") "receive_message"
           (JS.Object [("text", JS.Str "Hello"); ("from", JS.Str "Admin")])).
  vm_compute. left.
Defined.

(** An operator message in the plain shape: conversation text only. *)
Lemma plain_message_never_routed_witness :
  Forall (fun a => is_emit a = false)
    (actions
       (on_messages_upsert None one_correlation
          {| WA.messages :=
               [ {| WA.key :=
                      {| WA.remoteJid := Some "254754096684@s.whatsapp.net";
                         WA.fromMe := Some false;
                         WA.id := "A5F2" |};
                    WA.message :=
                      Some {| WA.conversation := Some "Hello";
                              WA.extendedTextMessage := None |} |} ] |}).2).
Proof.
  apply (plain_message_never_routed None one_correlation
           {| WA.key := {| WA.remoteJid := Some "254754096684@s.whatsapp.net";
                           WA.fromMe := Some false;
                           WA.id := "A5F2" |};
              WA.message := Some {| WA.conversation := Some "Hello";
                                    WA.extendedTextMessage := None |} |} []).
  reflexivity.
Defined.

(** ** Phone numbers in their different spellings *)

(** X15. The local spelling 0..., the international spelling +254... and the
    bare 254... of one number all give the same address. *)
Theorem phone_forms_agree (rest : string) :
  whatsapp_id (String "0" rest) = "254" ++ rest ++ "@s.whatsapp.net" /\
  whatsapp_id ("+254" ++ rest) = "254" ++ rest ++ "@s.whatsapp.net" /\
  whatsapp_id ("254" ++ rest) = "254" ++ rest ++ "@s.whatsapp.net".
Proof.
  unfold whatsapp_id. split; [|split].
  - rewrite formattedPhone_trunk. apply string_app_assoc.
  - change ("+254" ++ rest) with (String "+" ("254" ++ rest)).
    rewrite formattedPhone_plus. apply string_app_assoc.
  - rewrite formattedPhone_other; [apply string_app_assoc | |];
      change ("254" ++ rest) with (String "2" ("54" ++ rest));
      by apply startsWith_char_false.
Qed.

(** X16. The rules are applied once: the address keeps a leading 0 exactly for
    the phones written +0..., whose + is stripped without the trunk digit
    being replaced afterwards. *)
Theorem whatsapp_id_leading_zero (phone : string) :
  JS.startsWith "0" (whatsapp_id phone) = true <->
  exists rest, phone = String "+" (String "0" rest).
Proof.
  unfold whatsapp_id. destruct phone as [|c phone].
  - split; [discriminate | intros [rest [=]]].
  - destruct (ascii_dec c "0") as [->|Hzero].
    + rewrite formattedPhone_trunk.
      split; [discriminate | intros [rest [=]]].
    + destruct (ascii_dec c "+") as [->|Hplus].
      * rewrite formattedPhone_plus. destruct phone as [|d phone].
        -- split; [discriminate | intros [rest [=]]].
        -- change (String d phone ++ "@s.whatsapp.net")
             with (String d (phone ++ "@s.whatsapp.net")).
           rewrite startsWith_char. split.
           ++ intros [rest' [= ->]]. eauto.
           ++ intros [rest' [= -> ->]]. eauto.
      * rewrite formattedPhone_other
          by (apply startsWith_char_false; congruence).
        change (String c phone ++ "@s.whatsapp.net")
          with (String c (phone ++ "@s.whatsapp.net")).
        rewrite startsWith_char. split.
        -- intros [rest' [= ->]]. done.
        -- intros [rest' [= -> ->]]. done.
Qed.

(** X17. For a configured number that is not empty and does not start with 0,
    the operator address is the normalised address of that number. *)
Theorem adminPhone_agrees_with_normaliser (n : string) :
  n <> EmptyString -> JS.startsWith "0" n = false ->
  adminPhone (Some n) = whatsapp_id n.
Proof.
  intros Hn Hzero. unfold adminPhone, whatsapp_id, formattedPhone.
  rewrite Hzero. by destruct n.
Qed.

Lemma adminPhone_agrees_with_normaliser_witness :
  adminPhone (Some "+254754096684") = whatsapp_id "+254754096684".
Proof.
  apply (adminPhone_agrees_with_normaliser "+254754096684");
    [discriminate | reflexivity].
Defined.

(** X18. When the operator number is configured in the local spelling 0..., the
    operator address keeps the 0, so a message that arrives from the
    normalised address of that very number is not taken for an operator
    message: it is ignored. *)
Theorem local_operator_number_ignored (n : string)
    (messageMap : gmap string string) (msg : WA.WAMessage)
    (rest : list WA.WAMessage) :
  JS.startsWith "0" n = true ->
  WA.remoteJid (WA.key msg) = Some (whatsapp_id n) ->
  on_messages_upsert (Some n) messageMap {| WA.messages := msg :: rest |}
  = (messageMap, {| actions := []; completion := Returned |}).
Proof.
  intros [tail ->]%startsWith_char Hjid.
  apply upsert_ignored. right. rewrite Hjid. intros [= Heq]. revert Heq.
  unfold whatsapp_id. rewrite formattedPhone_trunk.
  unfold adminPhone. cbn [JS.truthy].
  rewrite ?startsWith_char_false by discriminate.
  change ("254" ++ tail) with (String "2" ("54" ++ tail)).
  apply string_head_ne. discriminate.
Qed.

Lemma local_operator_number_ignored_witness :
  on_messages_upsert (Some "0754096684") one_correlation
    {| WA.messages := [quoting "3EB0A1" "Hello"] |}
  = (one_correlation, {| actions := []; completion := Returned |}).
Proof.
  apply (local_operator_number_ignored "0754096684" one_correlation
           (quoting "3EB0A1" "Hello") []); reflexivity.
Defined.

(** ** The connection handler *)

Section ConnectionHandler.

Variable loggedOut : Z.

Implicit Types (update : WA.ConnectionUpdate).

(** What the handler does after the qr branch: log lines and at most the
    call of [startWhatsApp]. *)
Lemma connection_update_actions update :
  exists tail,
    actions (on_connection_update loggedOut update)
    = (qr_actions update ++ tail)%list /\
    forall a, a ∈ tail -> (exists args, a = ConsoleLog args) \/ a = StartWhatsApp.
Proof.
  unfold on_connection_update.
  destruct (decide (WA.connection update = Some "close")).
  - destruct (WA.lastDisconnect update) as [lastDisconnect|].
    + eexists. split; [reflexivity|]. intros a.
      case_bool_decide;
        repeat (intros [->|Hin]%elem_of_cons; [eauto | revert Hin]);
        intros Hin; by apply elem_of_nil in Hin.
    + exists []. split; [by rewrite app_nil_r|].
      intros a Hin. by apply elem_of_nil in Hin.
  - destruct (decide (WA.connection update = Some "open")).
    + eexists. split; [reflexivity|]. intros a.
      repeat (intros [->|Hin]%elem_of_cons; [eauto | revert Hin]);
        intros Hin; by apply elem_of_nil in Hin.
    + exists []. split; [by rewrite app_nil_r|].
      intros a Hin. by apply elem_of_nil in Hin.
Qed.

(** X19. The bridge reconnects on nothing but a close event that carries its
    lastDisconnect record with a status code other than loggedOut; an open
    event, a qr event or any other update never starts a new connection. *)
Theorem reconnect_only_on_close update :
  reconnects (on_connection_update loggedOut update) <->
  WA.connection update = Some "close" /\
  exists lastDisconnect,
    WA.lastDisconnect update = Some lastDisconnect /\
    WA.error lastDisconnect ?> WA.output ?> WA.statusCode <> Some loggedOut.
Proof.
  unfold reconnects, on_connection_update.
  assert (StartWhatsApp ∉ qr_actions update) as Hqr
    by (intros H; by apply qr_actions_quiet in H as [? _]).
  destruct (decide (WA.connection update = Some "close")) as [Hclose|Hclose].
  - destruct (WA.lastDisconnect update) as [lastDisconnect|].
    + cbn [actions returned]. rewrite !elem_of_app.
      case_bool_decide as Hcode; split.
      * intros _. split; [done|]. eauto.
      * intros _. right. right. left.
      * intros [?|[Hin|Hin]]; [done | |by apply elem_of_nil in Hin].
        apply elem_of_cons in Hin as [?|Hin]; [done|].
        by apply elem_of_nil in Hin.
      * intros [_ (ld & [= <-] & Hne)]. done.
    + cbn [actions threw]. split; [done|].
      intros [_ (ld & [=] & _)].
  - split; [|intros [? _]; done].
    destruct (decide (WA.connection update = Some "open"));
      cbn [actions returned]; [|done].
    rewrite elem_of_app. intros [?|Hin]; [done|].
    apply elem_of_cons in Hin as [?|Hin]; [done|].
    by apply elem_of_nil in Hin.
Qed.

(** X20. The handler throws in one case only, a close event without its
    lastDisconnect record, and it never reports an error. *)
Theorem connection_update_completion update :
  (completion (on_connection_update loggedOut update) = Returned <->
   ~ (WA.connection update = Some "close" /\
      WA.lastDisconnect update = None)) /\
  Forall (fun a => is_error_report a = false)
    (actions (on_connection_update loggedOut update)).
Proof.
  split.
  - unfold on_connection_update.
    destruct (decide (WA.connection update = Some "close")) as [Hclose|Hclose].
    + destruct (WA.lastDisconnect update); cbn [completion returned threw].
      * split; [intros _ [_ [=]] | done].
      * split; [done | intros H; by destruct H].
    + destruct (decide (WA.connection update = Some "open"));
        cbn [completion returned]; (split; [intros _ [? _]; done | done]).
  - destruct (connection_update_actions update) as (tail & -> & Htail).
    apply Forall_forall. intros a [Hin|Hin]%elem_of_app.
    + by apply qr_actions_quiet in Hin as [_ ?].
    + by destruct (Htail a Hin) as [[args ->]| ->].
Qed.

(** X21. The QR code of an update is printed exactly when the update carries a
    non-empty one, whatever the connection state it reports. *)
Theorem qr_shown_iff_present update (qr : string) :
  QrGenerate qr ∈ actions (on_connection_update loggedOut update) <->
  WA.qr update = Some qr /\ qr <> EmptyString.
Proof.
  destruct (connection_update_actions update) as (tail & -> & Htail).
  rewrite elem_of_app. unfold qr_actions.
  destruct (WA.qr update) as [[|c q]|]; cbn [JS.truthy default]; split.
  - intros [Hin|Hin]; [by apply elem_of_nil in Hin|].
    by destruct (Htail _ Hin) as [[args ?]|?].
  - by intros [[= <-] ?].
  - intros [[?|[[= ->]|Hin]%elem_of_cons]%elem_of_cons|Hin];
      [done | done | by apply elem_of_nil in Hin |].
    by destruct (Htail _ Hin) as [[args ?]|?].
  - intros [[= <-] _]. left. right. left.
  - intros [Hin|Hin]; [by apply elem_of_nil in Hin|].
    by destruct (Htail _ Hin) as [[args ?]|?].
  - by intros [[=] _].
Qed.

End ConnectionHandler.

(** An open event that also carries a QR code. *)
Lemma reconnect_only_on_close_witness :
  ~ reconnects
      (on_connection_update 401
         {| WA.connection := Some "open";
            WA.lastDisconnect := None;
            WA.qr := Some "2@AbCd" |}).
Proof.
  intros H.
  apply (reconnect_only_on_close 401
           {| WA.connection := Some "open";
              WA.lastDisconnect := None;
              WA.qr := Some "2@AbCd" |}) in H as [[=] _].
Defined.

Lemma connection_update_completion_witness :
  completion
    (on_connection_update 401
       {| WA.connection := Some "connecting";
          WA.lastDisconnect := None;
          WA.qr := None |})
  = Returned.
Proof.
  apply (proj1 (connection_update_completion 401
                  {| WA.connection := Some "connecting";
                     WA.lastDisconnect := None;
                     WA.qr := None |})).
  intros [[=] _].
Defined.

Lemma qr_shown_iff_present_witness :
  QrGenerate "2@AbCd"
  ∈ actions
      (on_connection_update 401
         {| WA.connection := Some "close";
            WA.lastDisconnect := None;
            WA.qr := Some "2@AbCd" |}).
Proof.
  apply (qr_shown_iff_present 401
           {| WA.connection := Some "close";
              WA.lastDisconnect := None;
              WA.qr := Some "2@AbCd" |} "2@AbCd").
  split; [reflexivity | discriminate].
Defined.

(** ** The health endpoint *)

Lemma object_keys_length (messageMap : gmap string string) :
  List.length (object_keys messageMap) = size messageMap.
Proof.
  unfold object_keys. rewrite length_fmap. apply length_map_to_list.
Qed.

(** X22. The health response has status 200 and reports ok, the number of open
    sockets it was given, and as mapped_messages the number of correlations
    that are in the store when the request is handled. *)
Theorem health_reports_store (messageMap : gmap string string)
    (now : string) (sockets_size : nat) :
  exists body,
    get_health messageMap now sockets_size
    = returned [ResJson 200 (JS.Object body)] /\
    JS.get_prop "status" body = JS.Str "ok" /\
    JS.get_prop "timestamp" body = JS.Str now /\
    JS.get_prop "active_connections" body
    = JS.Number (Z.of_nat sockets_size) /\
    JS.get_prop "mapped_messages" body
    = JS.Number (Z.of_nat (size messageMap)).
Proof.
  eexists. split; [reflexivity|]. repeat split.
  cbn. by rewrite object_keys_length.
Qed.

(** ** The store over a run of the bridge *)

Section Runs.

Variable env : option string.
Variable loggedOut : Z.

Implicit Types (messageMap : gmap string string) (evs : list Event).

Local Abbreviation store_after messageMap evs :=
  (handle_all env loggedOut messageMap evs).1.

Lemma handle_all_cons messageMap (ev : Event) evs :
  store_after messageMap (ev :: evs)
  = store_after (handle env loggedOut messageMap ev).1 evs.
Proof.
  cbn [handle_all].
  destruct (handle env loggedOut messageMap ev) as [messageMap' run].
  cbn [fst]. by destruct (handle_all env loggedOut messageMap' evs).
Qed.

Lemma handle_all_app messageMap evs1 evs2 :
  store_after messageMap (evs1 ++ evs2)
  = store_after (store_after messageMap evs1) evs2.
Proof.
  revert messageMap. induction evs1 as [|ev evs1 IH]; intros messageMap.
  - reflexivity.
  - rewrite <- app_comm_cons. by rewrite !handle_all_cons, IH.
Qed.

(** Where an entry of the store after one event comes from. *)
Lemma handle_lookup_origin messageMap (ev : Event) (k s : string) :
  (handle env loggedOut messageMap ev).1 !! k = Some s ->
  messageMap !! k = Some s \/
  exists d sentMsg,
    ev = SendMessage s (Some d) (Resolved sentMsg) /\
    WA.id (WA.key sentMsg) = k.
Proof.
  destruct ev as [update|req_body result|m|socket_id|socket_id data result
                 |socket_id]; cbn [handle fst].
  - auto.
  - auto.
  - rewrite upsert_store_unchanged. auto.
  - auto.
  - destruct data as [d|]; [destruct result as [sentMsg|error]|];
      cbn [on_send_message fst]; auto.
    unfold record. destruct (decide (WA.id (WA.key sentMsg) = k)) as [<-|Hne].
    + rewrite lookup_insert_eq. intros [= ->]. right. eauto.
    + rewrite lookup_insert_ne by done. auto.
  - cbn [on_disconnect fst]. rewrite purgeSession_lookup.
    case_decide; [done | auto].
Qed.

(** X23. Every correlation in the store was either there at the start or was
    recorded by a successful send of that very socket, under the id that
    WhatsApp gave to that send.  No other event adds or rewrites an
    entry. *)
Theorem store_provenance evs : forall messageMap (k s : string),
  (handle_all env loggedOut messageMap evs).1 !! k = Some s ->
  messageMap !! k = Some s \/
  exists d sentMsg,
    SendMessage s (Some d) (Resolved sentMsg) ∈ evs /\
    WA.id (WA.key sentMsg) = k.
Proof.
  induction evs as [|ev evs IH]; intros messageMap k s Hk.
  - by left.
  - rewrite handle_all_cons in Hk.
    destruct (IH _ _ _ Hk) as [Hprev|(d & sentMsg & Hin & Hid)].
    + destruct (handle_lookup_origin _ _ _ _ Hprev)
        as [?|(d & sentMsg & -> & Hid)]; [by left|].
      right. exists d, sentMsg. split; [left | done].
    + right. exists d, sentMsg. split; [by right | done].
Qed.

Lemma handle_keeps_absent messageMap (ev : Event) (s : string) :
  (forall data result, ev <> SendMessage s data result) ->
  (forall k, messageMap !! k <> Some s) ->
  forall k, (handle env loggedOut messageMap ev).1 !! k <> Some s.
Proof.
  intros Hev Hnone k Hk.
  destruct (handle_lookup_origin _ _ _ _ Hk) as [?|(d & sentMsg & -> & _)].
  - by eapply Hnone.
  - by eapply Hev.
Qed.

Lemma handle_keeps_entry messageMap (ev : Event) (k s : string) :
  messageMap !! k = Some s ->
  ev <> Disconnect s ->
  (forall s' d sentMsg,
     ev = SendMessage s' (Some d) (Resolved sentMsg) ->
     WA.id (WA.key sentMsg) <> k) ->
  (handle env loggedOut messageMap ev).1 !! k = Some s.
Proof.
  intros Hk Hdisc Hsend.
  destruct ev as [update|req_body result|m|socket_id|socket_id data result
                 |socket_id]; cbn [handle fst]; try done.
  - by rewrite upsert_store_unchanged.
  - destruct data as [d|]; [destruct result as [sentMsg|error]|];
      cbn [on_send_message fst]; try done.
    unfold record. rewrite lookup_insert_ne; [done|]. by eapply Hsend.
  - cbn [on_disconnect fst]. rewrite purgeSession_lookup.
    rewrite decide_False; [done|]. rewrite Hk. congruence.
Qed.

(** X24. After the disconnect handler of a socket has run, the store holds
    no entry of that socket for as long as no send_message handler of the
    socket resumes afterwards, whatever the other handlers do in between.
    A send of the socket that was still awaited when the disconnect handler
    ran and resolves afterwards writes its entry after the purge, and that
    entry stays: it is in the store at the end of the run unless the
    disconnect handler runs again or the id is recorded anew. *)
Theorem no_entries_after_disconnect messageMap evs1 (s : string) :
  (forall evs2,
     (forall data result, SendMessage s data result ∉ evs2) ->
     forall k,
       (handle_all env loggedOut messageMap (evs1 ++ Disconnect s :: evs2)).1
       !! k
       <> Some s) /\
  (forall d sentMsg evs2,
     (forall ev, ev ∈ evs2 ->
        ev <> Disconnect s /\
        forall s' d' sentMsg',
          ev = SendMessage s' (Some d') (Resolved sentMsg') ->
          WA.id (WA.key sentMsg') <> WA.id (WA.key sentMsg)) ->
     (handle_all env loggedOut messageMap
        (evs1 ++ Disconnect s
              :: SendMessage s (Some d) (Resolved sentMsg) :: evs2)).1
     !! WA.id (WA.key sentMsg)
     = Some s).
Proof.
  split.
  - intros evs2 Hquiet. rewrite handle_all_app, handle_all_cons.
    cbn [handle on_disconnect fst].
    assert (forall k,
              purgeSession s (store_after messageMap evs1) !! k <> Some s)
      as Hpurged.
    { intros k. rewrite purgeSession_lookup.
      case_decide; [done | congruence]. }
    revert Hquiet Hpurged.
    generalize (purgeSession s (store_after messageMap evs1)).
    induction evs2 as [|ev evs2 IH]; intros start Hquiet Hnone k.
    + apply Hnone.
    + rewrite handle_all_cons. apply IH.
      * intros data result Hin. apply (Hquiet data result). by right.
      * apply handle_keeps_absent; [|done].
        intros data result ->. apply (Hquiet data result). left.
  - intros d sentMsg evs2 Hrest.
    rewrite handle_all_app, !handle_all_cons.
    cbn [handle on_disconnect on_send_message fst].
    assert (record (WA.id (WA.key sentMsg)) s
              (purgeSession s (store_after messageMap evs1))
            !! WA.id (WA.key sentMsg) = Some s) as Hstart
      by apply lookup_insert_eq.
    revert Hrest Hstart.
    generalize (record (WA.id (WA.key sentMsg)) s
                  (purgeSession s (store_after messageMap evs1))).
    induction evs2 as [|ev evs2 IH]; intros start Hrest Hstart.
    + exact Hstart.
    + rewrite handle_all_cons. apply IH.
      * intros ev' Hin. apply Hrest. by right.
      * destruct (Hrest ev) as [Hdisc Hsend]; [left|].
        by apply handle_keeps_entry.
Qed.

Lemma handle_size messageMap (ev : Event) :
  size (handle env loggedOut messageMap ev).1
  <= size messageMap + (if records_correlation ev then 1 else 0).
Proof.
  destruct ev as [update|req_body result|m|socket_id|socket_id data result
                 |socket_id]; cbn [handle fst records_correlation].
  - lia.
  - lia.
  - rewrite upsert_store_unchanged. lia.
  - lia.
  - destruct data as [d|]; [destruct result as [sentMsg|error]|];
      cbn [on_send_message fst]; try lia.
    unfold record. rewrite map_size_insert.
    destruct (messageMap !! _); unfold id; lia.
  - cbn [on_disconnect fst]. rewrite purgeSession_filter.
    pose proof (map_subseteq_size _ _
                  (map_filter_subseteq (fun kv => kv.2 <> socket_id)
                     messageMap)).
    lia.
Qed.

Lemma handle_all_size evs : forall messageMap,
  size (handle_all env loggedOut messageMap evs).1
  <= size messageMap + List.length (List.filter records_correlation evs).
Proof.
  induction evs as [|ev evs IH]; intros messageMap.
  - cbn. lia.
  - rewrite handle_all_cons. cbn [List.filter].
    pose proof (handle_size messageMap ev) as Hstep.
    pose proof (IH (handle env loggedOut messageMap ev).1) as Hrest.
    destruct (records_correlation ev); cbn [List.length]; lia.
Qed.

(** X25. The store grows by at most one entry for each handler invocation
    whose send resolved: its size after a run is bounded by its size before
    plus the number of such invocations.  The count is over invocations,
    not over client events: when one send_message of a client runs two
    handlers (registered by two calls of [startWhatsApp]) and both sends
    resolve, with two fresh ids, the store grows by two. *)
Theorem store_size_bounded messageMap :
  (forall evs,
     size (handle_all env loggedOut messageMap evs).1
     <= size messageMap
        + List.length (List.filter records_correlation evs)) /\
  (forall (s : string) (d : ChatData) (sent_a sent_b : WA.WAMessage),
     messageMap !! WA.id (WA.key sent_a) = None ->
     messageMap !! WA.id (WA.key sent_b) = None ->
     WA.id (WA.key sent_a) <> WA.id (WA.key sent_b) ->
     size (handle_all env loggedOut messageMap
             [SendMessage s (Some d) (Resolved sent_a);
              SendMessage s (Some d) (Resolved sent_b)]).1
     = size messageMap + 2).
Proof.
  split; [intros evs; apply handle_all_size|].
  intros s d sent_a sent_b Ha Hb Hne.
  cbn [handle_all handle on_send_message fst]. unfold record.
  rewrite !map_size_insert_None; [lia | done |].
  by rewrite lookup_insert_ne.
Qed.

End Runs.

Lemma whatsapp_id_leading_zero_witness :
  JS.startsWith "0" (whatsapp_id "+0712345678") = true.
Proof.
  apply (proj2 (whatsapp_id_leading_zero "+0712345678")).
  by eexists.
Defined.

Lemma store_provenance_witness :
  (∅ : gmap string string) !! "3EB0A1" = Some "socketA" \/
  exists d sentMsg,
    SendMessage "socketA" (Some d) (Resolved sentMsg)
    ∈ [SendMessage "socketA" (Some {| text := "Hi" |})
         (Resolved (sent_as "3EB0A1"));
       MessagesUpsert {| WA.messages := [quoting "3EB0A1" "Hello"] |}] /\
    WA.id (WA.key sentMsg) = "3EB0A1".
Proof.
  apply (store_provenance None 401
           [SendMessage "socketA" (Some {| text := "Hi" |})
              (Resolved (sent_as "3EB0A1"));
            MessagesUpsert {| WA.messages := [quoting "3EB0A1" "Hello"] |}]
           ∅ "3EB0A1" "socketA").
  reflexivity.
Defined.

Lemma no_entries_after_disconnect_witness :
  (handle_all None 401 one_correlation
     ([SendMessage "socketA" (Some {| text := "Hi" |})
         (Resolved (sent_as "3EB0A4"))]
      ++ Disconnect "socketA"
         :: [SendMessage "socketB" (Some {| text := "Hello" |})
               (Resolved (sent_as "3EB0B2"));
             MessagesUpsert
               {| WA.messages := [quoting "3EB0A1" "Hello"] |}])).1
  !! "3EB0A1"
  <> Some "socketA"
  /\
  (handle_all None 401 one_correlation
     ([] ++ Disconnect "socketA"
         :: SendMessage "socketA" (Some {| text := "Hi" |})
              (Resolved (sent_as "3EB0A4"))
         :: [SendMessage "socketB" (Some {| text := "Hello" |})
               (Resolved (sent_as "3EB0B2"))])).1
  !! WA.id (WA.key (sent_as "3EB0A4"))
  = Some "socketA".
Proof.
  split.
  - apply (proj1 (no_entries_after_disconnect None 401 one_correlation
                    [SendMessage "socketA" (Some {| text := "Hi" |})
                       (Resolved (sent_as "3EB0A4"))]
                    "socketA")
             [SendMessage "socketB" (Some {| text := "Hello" |})
                (Resolved (sent_as "3EB0B2"));
              MessagesUpsert
                {| WA.messages := [quoting "3EB0A1" "Hello"] |}]).
    intros data result [[=]|[[=]|Hin]%elem_of_cons]%elem_of_cons.
    by apply elem_of_nil in Hin.
  - apply (proj2 (no_entries_after_disconnect None 401 one_correlation
                    [] "socketA")
             {| text := "Hi" |} (sent_as "3EB0A4")
             [SendMessage "socketB" (Some {| text := "Hello" |})
                (Resolved (sent_as "3EB0B2"))]).
    intros ev [->|Hin]%elem_of_cons; [|by apply elem_of_nil in Hin].
    split; [discriminate|].
    intros s' d' sentMsg' [= _ _ <-]. discriminate.
Defined.

Lemma store_size_bounded_witness :
  size (handle_all None 401 one_correlation
          [SendMessage "socketB" (Some {| text := "Hello" |})
             (Resolved (sent_as "3EB0B2"));
           SendMessage "socketB" (Some {| text := "Hello" |})
             (Resolved (sent_as "3EB0B3"))]).1
  = size one_correlation + 2.
Proof.
  apply (proj2 (store_size_bounded None 401 one_correlation) "socketB"
           {| text := "Hello" |} (sent_as "3EB0B2") (sent_as "3EB0B3"));
    [reflexivity | reflexivity | discriminate].
Defined.
